(** * Markprompt: section splitting and embedding generation

    A shallow embedding of [src/lib/generate-embeddings.ts] and the
    properties of its segmentation and persistence pipeline.

    Conventions of the embedding.

    - A JavaScript string is a [string]; [String.length] is its [length]
      property.  The functions below only count code units, append, slice
      and compare against the line feed, so the width of a code unit plays
      no role.
    - JavaScript numbers are modelled by exact rationals [Q].  Every number
      the splitter computes is a sum of quarters of string lengths, which a
      double represents exactly; the product [CONTEXT_TOKENS_CUTOFF * 0.8]
      for an integer cut-off either is an integer a double holds exactly or
      lies at least 1/20 away from every multiple of a quarter, so the
      comparisons against it decide the same way over [Q] as over doubles.
    - The constants of [@/lib/constants] and the helpers of other modules
      ([createEmbedding], [getFileAtPath], [createFile], the parsers) are not
      part of this file of the program: they are taken as parameters. *)

From Stdlib Require Import String Ascii List ZArith QArith Lia Lqa Bool Arith.
Import ListNotations.

Local Open Scope list_scope.
Local Open Scope string_scope.

(** ** Strings *)

(** The line feed, ['\n']. *)
Definition LF : ascii := "010"%char.

Definition LFs : string := String LF EmptyString.

(** [s.split('\n')]: the pieces of [s] between line feeds; never empty. *)
Fixpoint split_lines (s : string) : list string :=
  match s with
  | EmptyString => [EmptyString]
  | String c r =>
      if Ascii.eqb c LF then EmptyString :: split_lines r
      else match split_lines r with
           | h :: t => String c h :: t
           | [] => [String c EmptyString]
           end
  end.

(** [!!s] for a string: the empty string is the only falsy one. *)
Definition truthy_string (s : string) : bool :=
  match s with
  | EmptyString => false
  | String _ _ => true
  end.

(** [s.length] as a JavaScript number. *)
Definition jslength (s : string) : Q := inject_Z (Z.of_nat (String.length s)).

(** [x < y] on numbers. *)
Definition Qltb (x y : Q) : bool := negb (Qle_bool y x).

(** ** The budget sub-splitter *)

(** [const TOKEN_CUTOFF_ADJUSTED = CONTEXT_TOKENS_CUTOFF * 0.8] *)
Definition TOKEN_CUTOFF_ADJUSTED (CONTEXT_TOKENS_CUTOFF : Z) : Q :=
  inject_Z CONTEXT_TOKENS_CUTOFF * (8 # 10).

(** The approximation [length / 4] used in place of the tokenizer. *)
Definition estimatedTokens (s : string) : Q := jslength s / 4.

(** The three variables the loop of [splitWithinTokenCutoff] updates. *)
Record SplitState : Type := mkSplitState {
  subSections : list string;
  accTokenCounter : Q;
  accLines : string
}.

Definition splitInit : SplitState :=
  {| subSections := []; accTokenCounter := 0; accLines := "" |}.

(** One iteration of [for (const line of lines)]. *)
Definition splitStep (B : Q) (st : SplitState) (line : string) : SplitState :=
  let lineTokenCount := jslength line / 4 in
  if Qltb (accTokenCounter st + lineTokenCount) B then
    {| subSections := subSections st;
       accTokenCounter := accTokenCounter st + lineTokenCount;
       accLines := accLines st ++ LFs ++ line |}
  else
    {| subSections := (subSections st ++ [accLines st])%list;
       accTokenCounter := 0;
       accLines := line |}.

Definition splitLoop (B : Q) (lines : list string) (st : SplitState) : SplitState :=
  fold_left (splitStep B) lines st.

(** The tail of [splitWithinTokenCutoff]: [if (!!accLines) push]. *)
Definition splitFinish (st : SplitState) : list string :=
  if truthy_string (accLines st) then (subSections st ++ [accLines st])%list
  else subSections st.

Definition splitWithinTokenCutoff (CONTEXT_TOKENS_CUTOFF : Z) (section : string)
  : list string :=
  if Qltb (jslength section / 4) (TOKEN_CUTOFF_ADJUSTED CONTEXT_TOKENS_CUTOFF)
  then [section]
  else splitFinish
         (splitLoop (TOKEN_CUTOFF_ADJUSTED CONTEXT_TOKENS_CUTOFF)
                    (split_lines section) splitInit).

(** ** Exceptions *)

(** A computation that returns or throws; a thrown value is kept as the
    text its conversion to a string gives. *)
Inductive result (A : Type) : Type :=
| Ok (a : A)
| Throw (e : string).

Arguments Ok {A} a.
Arguments Throw {A} e.

Definition rbind {A B : Type} (r : result A) (k : A -> result B) : result B :=
  match r with
  | Ok a => k a
  | Throw e => Throw e
  end.

Notation "'try!' x <- r ; k" := (rbind r (fun x => k))
  (at level 10, x name, r at level 100, k at level 200).

(** [rs.map(f)] for an [f] that may throw: the first throw ends it. *)
Fixpoint mapResult {A B : Type} (f : A -> result B) (l : list A) : result (list B) :=
  match l with
  | [] => Ok []
  | a :: l' =>
      try! b <- f a;
      try! bs <- mapResult f l';
      Ok (b :: bs)
  end.

(** ** The section splitter *)

(** An mdast node: its [type] tag, its children and its literal value. *)
#[warnings="-register-all"] Inductive Content : Type :=
| Node (type : string) (children : list Content) (value : string).

Definition type (n : Content) : string :=
  match n with Node t _ _ => t end.

(** An mdast [Root]. *)
Record Root : Type := mkRoot { children : list Content }.

(** [u('root', nodes)] *)
Definition u_root (nodes : list Content) : Root := {| children := nodes |}.

(** [const [lastTree] = trees.slice(-1)]: the last tree, or undefined. *)
Fixpoint lastTree (trees : list Root) : option Root :=
  match trees with
  | [] => None
  | [t] => Some t
  | _ :: ts => lastTree ts
  end.

(** The callback of [tree.children.reduce].  [lastTree.children.push(node)]
    mutates the object the array [trees] holds in its last place; here the
    last element of the list is replaced by the extended tree. *)
Definition splitTreeStep (predicate : Content -> bool)
    (trees : list Root) (node : Content) : list Root :=
  match lastTree trees with
  | None => trees ++ [u_root [node]]
  | Some last =>
      if predicate node then trees ++ [u_root [node]]
      else removelast trees ++ [ {| children := children last ++ [node] |} ]
  end%list.

Definition splitTreeBy (tree : Root) (predicate : Content -> bool) : list Root :=
  fold_left (splitTreeStep predicate) (children tree) [].

(** [(node) => node.type === 'heading'] *)
Definition isHeading (node : Content) : bool := String.eqb (type node) "heading".

(** The node types [splitMarkdownIntoSections] removes. *)
Definition mdxTypes : list string :=
  ["mdxjsEsm"; "mdxJsxFlowElement"; "mdxJsxTextElement";
   "mdxFlowExpression"; "mdxTextExpression"].

(** [(node) => ![...].includes(node.type)], as a test on the type tag. *)
Definition keepNodeType (t : string) : bool :=
  negb (existsb (String.eqb t) mdxTypes).

(** [section.replace(/\n/g, ' ')] *)
Fixpoint replaceLF (s : string) : string :=
  match s with
  | EmptyString => EmptyString
  | String c r => String (if Ascii.eqb c LF then " "%char else c) (replaceLF r)
  end.

(** [input.slice(0, 20)] *)
Definition slice20 (input : string) : string := substring 0 20 input.

Section Pipeline.

(** Types declared in [@/types/types] and by the libraries. *)
Context {Meta Embedding ProjectId FileId : Type}.

(** [!!id] for a file id. *)
Variable truthyId : FileId -> bool.

(** *** Parsers and converters

    The libraries the normaliser calls.  A call that may throw returns a
    [result]. *)
Record Lib : Type := mkLib {
  (** [fromMarkdown(content, asMDX ? {mdxjs extensions} : {})] *)
  fromMarkdown : string -> bool -> result Root;
  (** [filter(tree, test)] of unist-util-filter; [None] is its null. *)
  filter : Root -> (string -> bool) -> option Root;
  (** [toMarkdown(tree)] *)
  toMarkdown : Root -> result string;
  (** [Markdoc.renderers.html(Markdoc.transform(Markdoc.parse(content),
      {tags: {img, image}})) || ''] *)
  markdocHtml : string -> result string;
  (** [turndown.turndown(html)] *)
  turndown : string -> result string;
  (** [getFileType(name)] *)
  getFileType : string -> string;
  (** [extractFrontmatter(content)] *)
  extractFrontmatter : string -> Meta
}.

Variable lib : Lib.
Variable CONTEXT_TOKENS_CUTOFF : Z.
Variable MIN_CONTENT_LENGTH : Z.

Definition splitMarkdownIntoSections (content : string) (asMDX : bool)
  : result (list string) :=
  try! mdxTree <- fromMarkdown lib content asMDX;
  match filter lib mdxTree keepNodeType with
  | None => Ok []
  | Some mdTree =>
      let sectionTrees := splitTreeBy mdTree isHeading in
      mapResult (toMarkdown lib) sectionTrees
  end.

Definition splitMarkdocIntoSections (content : string) : result (list string) :=
  try! html <- markdocHtml lib content;
  try! md <- turndown lib html;
  splitMarkdownIntoSections md false.

Definition splitHtmlIntoSections (content : string) : result (list string) :=
  try! md <- turndown lib content;
  splitMarkdownIntoSections md false.

Record FileData : Type := mkFileData {
  path : string;
  name : string;
  content : string
}.

Record FileSectionData : Type := mkFileSectionData {
  sections : list string;
  meta : Meta
}.

(** The sections of a file before the budget sub-splitter: the dispatch
    on the file type, with the fallback of the [catch]. *)
Definition fileSections (file : FileData) : result (list string) :=
  let fileType := getFileType lib (name file) in
  if String.eqb fileType "mdoc" then splitMarkdocIntoSections (content file)
  else if String.eqb fileType "html" then splitHtmlIntoSections (content file)
  else match splitMarkdownIntoSections (content file) true with
       | Ok sections => Ok sections
       | Throw _ => splitMarkdocIntoSections (content file)
       end.

(** [sections.reduce((acc, value) => [...acc, ...splitWithinTokenCutoff(value)], [])] *)
Definition trimSections (sections : list string) : list string :=
  fold_left
    (fun acc value => (acc ++ splitWithinTokenCutoff CONTEXT_TOKENS_CUTOFF value)%list)
    sections [].

Definition processFile (file : FileData) : result FileSectionData :=
  let meta := extractFrontmatter lib (content file) in
  try! sections <- fileSections file;
  Ok {| sections := trimSections sections; meta := meta |}.

(** *** The outside world

    The stores and the provider are seen through the calls made to them.
    A run threads the list of the calls made so far, oldest first; what a
    call answers is given by the environment, as a function of that
    history. *)

(** A row of [file_sections], as pushed on [embeddingsData]; [row_content]
    is its [content] field. *)
Record Row : Type := mkRow {
  file_id : FileId;
  row_content : string;
  embedding : Embedding;
  token_count : Z
}.

(** An entry of the returned [errors]; [err_path] is its [path] field. *)
Record ErrorEntry : Type := mkErrorEntry {
  err_path : string;
  message : string
}.

(** The calls to the stores, to the provider, and the waits of the retry.
    Writes to the console are not recorded; the key of the usage counter is
    computed from the project and the date of the call, of which the project
    is kept. *)
Inductive Event : Type :=
| EvGetFileAtPath (projectId : ProjectId) (path : string)
| EvDeleteFileSections (fileId : FileId)
| EvUpdateFileMeta (fileId : FileId) (meta : Meta)
| EvCreateFile (projectId : ProjectId) (path : string) (meta : Meta)
| EvCreateEmbedding (input : string) (byoOpenAIKey : option string)
| EvDelay (ms : Z)
| EvInsertFileSections (rows : list Row)
| EvIncrBy (projectId : ProjectId) (amount : Z).

Definition Trace : Type := list Event.

(** The [usage] object of a response. *)
Record Usage : Type := mkUsage { total_tokens : option Z }.

(** The response of the provider: [data[i].embedding] and [usage]. *)
Record EmbeddingResult : Type := mkEmbeddingResult {
  data : list Embedding;
  usage : option Usage
}.

Record Env : Type := mkEnv {
  (** [getFileAtPath(supabaseAdmin, projectId, path)] *)
  getFileAtPath : Trace -> ProjectId -> string -> option FileId;
  (** [createFile(supabaseAdmin, projectId, path, meta)] *)
  createFile : Trace -> ProjectId -> string -> Meta -> option FileId;
  (** [createEmbedding(input, byoOpenAIKey)] *)
  createEmbedding : Trace -> string -> option string -> result EmbeddingResult;
  (** the [error] of [from('file_sections').insert(rows)]: its [message] *)
  insertError : Trace -> list Row -> option string;
  (** the text of the TypeError of reading property [p] of undefined *)
  typeError : string -> string
}.

Variable env : Env.

(** A state monad over the history of calls. *)
Definition IO (A : Type) : Type := Trace -> A * Trace.

Definition ret {A : Type} (a : A) : IO A := fun t => (a, t).

Definition bind {A B : Type} (m : IO A) (k : A -> IO B) : IO B :=
  fun t => let (a, t') := m t in k a t'.

Definition emit (e : Event) : IO unit := fun t => (tt, (t ++ [e])%list).

(** Ask the environment with the history so far, then record the call. *)
Definition call {A : Type} (answer : Trace -> A) (e : Event) : IO A :=
  fun t => (answer t, (t ++ [e])%list).

Notation "x <- m ;; k" := (bind m (fun x => k))
  (at level 61, m at next level, right associativity).
Notation "m ;;; k" := (bind m (fun _ => k))
  (at level 61, right associativity).

(** [for (const x of l) await f(x)] *)
Fixpoint forEach {A : Type} (f : A -> IO unit) (l : list A) : IO unit :=
  match l with
  | [] => ret tt
  | a :: l' => f a ;;; forEach f l'
  end.

(** [for (const x of l)] updating the local variables [acc]. *)
Fixpoint foldIO {A S : Type} (f : S -> A -> IO S) (l : list A) (acc : S) : IO S :=
  match l with
  | [] => ret acc
  | a :: l' => acc' <- f acc a ;; foldIO f l' acc'
  end.

(** *** Retry

    [backOff(request, {startingDelay, numOfAttempts})] of the package
    exponential-backoff with its other options at their defaults: no delay
    before the first attempt, the delay doubled from one retry to the
    next, every error retried, the last error thrown once the attempts
    are used up. *)
Definition timeMultiple : Z := 2.

Fixpoint backOffFrom {A : Type} (request : IO (result A)) (startingDelay : Z)
    (remaining attemptNumber : nat) : IO (result A) :=
  match remaining with
  | O => ret (Throw "Error: Something went wrong.")
  | S remaining' =>
      (match attemptNumber with
       | O => ret tt
       | S k => emit (EvDelay (startingDelay * timeMultiple ^ Z.of_nat k))
       end) ;;;
      r <- request ;;
      match r with
      | Ok a => ret (Ok a)
      | Throw e =>
          match remaining' with
          | O => ret (Throw e)
          | S _ => backOffFrom request startingDelay remaining' (S attemptNumber)
          end
      end
  end.

Definition backOff {A : Type} (request : IO (result A))
    (startingDelay : Z) (numOfAttempts : nat) : IO (result A) :=
  backOffFrom request startingDelay numOfAttempts 0.

(** *** The embedding loop *)

(** The local variables of [generateFileEmbeddings] the loop updates. *)
Record Acc : Type := mkAcc {
  embeddingsTokenCount : Z;
  errors : list ErrorEntry;
  embeddingsData : list Row
}.

Definition accInit : Acc :=
  {| embeddingsTokenCount := 0; errors := []; embeddingsData := [] |}.

(** [embeddingResult.usage?.total_tokens ?? 0] *)
Definition usageTokens (r : EmbeddingResult) : Z :=
  match usage r with
  | Some u => match total_tokens u with Some n => n | None => 0 end
  | None => 0
  end.

(** The message of the [catch] of the loop. *)
Definition embeddingErrorMessage (input error : string) : string :=
  "Unable to generate embeddings for section starting with '"
    ++ slice20 input ++ "...': " ++ error.

Definition pushError (acc : Acc) (path msg : string) : Acc :=
  {| embeddingsTokenCount := embeddingsTokenCount acc;
     errors := (errors acc ++ [ {| err_path := path; message := msg |} ])%list;
     embeddingsData := embeddingsData acc |}.

(** The body of the [try] once [backOff] has returned [r]: the counter is
    updated first; building the row reads [data[0].embedding] and then
    [usage.total_tokens], either of which throws on undefined. *)
Definition recordEmbedding (fileId : FileId) (input : string)
    (acc : Acc) (r : EmbeddingResult) : result Acc :=
  let count := (embeddingsTokenCount acc + usageTokens r)%Z in
  match data r with
  | [] => Throw (typeError env "embedding")
  | e :: _ =>
      match usage r with
      | None => Throw (typeError env "total_tokens")
      | Some u =>
          Ok {| embeddingsTokenCount := count;
                errors := errors acc;
                embeddingsData :=
                  (embeddingsData acc ++
                     [ {| file_id := fileId;
                          row_content := input;
                          embedding := e;
                          token_count :=
                            match total_tokens u with Some n => n | None => 0 end |} ])%list |}
      end
  end.

(** [() => createEmbedding(input, byoOpenAIKey)] *)
Definition createEmbeddingRequest (input : string) (byoOpenAIKey : option string)
  : IO (result EmbeddingResult) :=
  call (fun t => createEmbedding env t input byoOpenAIKey)
       (EvCreateEmbedding input byoOpenAIKey).

(** One iteration of [for (const section of sections)]. *)
Definition embedSection (filePath : string) (fileId : FileId)
    (byoOpenAIKey : option string) (acc : Acc) (section : string) : IO Acc :=
  let input := replaceLF section in
  if (Z.of_nat (String.length input) <? MIN_CONTENT_LENGTH)%Z then ret acc
  else
    r <- backOff (createEmbeddingRequest input byoOpenAIKey) 10000 10 ;;
    match r with
    | Ok res =>
        match recordEmbedding fileId input acc res with
        | Ok acc' => ret acc'
        | Throw error =>
            ret (pushError
                   {| embeddingsTokenCount :=
                        (embeddingsTokenCount acc + usageTokens res)%Z;
                      errors := errors acc;
                      embeddingsData := embeddingsData acc |}
                   filePath (embeddingErrorMessage input error))
        end
    | Throw error =>
        ret (pushError acc filePath (embeddingErrorMessage input error))
    end.

Definition embedLoop (filePath : string) (fileId : FileId)
    (byoOpenAIKey : option string) (sections : list string) (acc : Acc) : IO Acc :=
  foldIO (embedSection filePath fileId byoOpenAIKey) sections acc.

(** *** Persistence *)

(** [fileId] is truthy: defined and not a falsy id. *)
Definition truthyFile (fileId : option FileId) : option FileId :=
  match fileId with
  | Some id => if truthyId id then Some id else None
  | None => None
  end.

(** Lines 202 to 213: look the file up; delete its sections and update
    it, or create it. *)
Definition resolveFile (projectId : ProjectId) (filePath : string) (meta : Meta)
  : IO (option FileId) :=
  fileId <- call (fun t => getFileAtPath env t projectId filePath)
                 (EvGetFileAtPath projectId filePath) ;;
  match truthyFile fileId with
  | Some id =>
      emit (EvDeleteFileSections id) ;;;
      emit (EvUpdateFileMeta id meta) ;;;
      ret (Some id)
  | None =>
      created <- call (fun t => createFile env t projectId filePath meta)
                      (EvCreateFile projectId filePath meta) ;;
      ret (truthyFile created)
  end.

(** Lines 264 to 277: the bulk insert and its fallback. *)
Definition storeEmbeddings (filePath : string) (acc : Acc) : IO (list ErrorEntry) :=
  error <- call (fun t => insertError env t (embeddingsData acc))
                (EvInsertFileSections (embeddingsData acc)) ;;
  match error with
  | Some msg =>
      forEach (fun row => emit (EvInsertFileSections [row])) (embeddingsData acc) ;;;
      ret (errors (pushError acc filePath ("Error storing embeddings: " ++ msg)))
  | None => ret (errors acc)
  end.

Definition generateFileEmbeddings (projectId : ProjectId) (file : FileData)
    (byoOpenAIKey : option string) : IO (result (list ErrorEntry)) :=
  match processFile file with
  | Throw e => ret (Throw e)
  | Ok fsd =>
      fileId <- resolveFile projectId (path file) (meta fsd) ;;
      match fileId with
      | None =>
          ret (Ok [ {| err_path := path file;
                       message := "Unable to create file " ++ path file ++ "." |} ])
      | Some id =>
          acc <- embedLoop (path file) id byoOpenAIKey (sections fsd) accInit ;;
          errs <- storeEmbeddings (path file) acc ;;
          emit (EvIncrBy projectId (embeddingsTokenCount acc)) ;;;
          ret (Ok errs)
      end
  end.

End Pipeline.

(** ** Notions used to state the properties *)

(** A string without a line feed. *)
Fixpoint noLF (s : string) : bool :=
  match s with
  | EmptyString => true
  | String c r => negb (Ascii.eqb c LF) && noLF r
  end.

(** The estimated tokens of a list of lines, separators not counted. *)
Definition linesTokens (ls : list string) : Q :=
  fold_right (fun l acc => estimatedTokens l + acc) 0 ls.

(** A string of [n] letters. *)
Fixpoint letters (n : nat) : string :=
  match n with
  | O => EmptyString
  | S k => String "a"%char (letters k)
  end.

(** The number of heading nodes of a node sequence. *)
Definition countHeadings (nodes : list Content) : nat :=
  List.length (List.filter isHeading nodes).

(** One more section when the sequence starts with a node that is not a
    heading. *)
Definition leadingSection (nodes : list Content) : nat :=
  match nodes with
  | [] => 0
  | n :: _ => if isHeading n then 0 else 1
  end.

(** The lines of a list of pieces, piece after piece. *)
Definition piecesLines (pieces : list string) : list string :=
  concat (map split_lines pieces).

(** What the loop of the sub-splitter maintains for a positive budget: the
    counter is under the budget, and it is the estimate of the lines of the
    buffer after the first one; so is every piece already flushed. *)
Definition budgetInv (B : Q) (st : SplitState) : Prop :=
  accTokenCounter st < B
  /\ Forall (fun p => linesTokens (tl (split_lines p)) < B) (subSections st)
  /\ linesTokens (tl (split_lines (accLines st))) == accTokenCounter st.

Section RunNotions.

Context {Meta Embedding ProjectId FileId : Type}.

Let Event := @Event Meta Embedding ProjectId FileId.

(** The delay [backOff] waits before attempt [attemptNumber], if any. *)
Definition delayBefore (attemptNumber : nat) : list Event :=
  match attemptNumber with
  | O => []
  | S k => [EvDelay (10000 * timeMultiple ^ Z.of_nat k)]
  end.

(** The calls of [n] attempts in a row, from attempt [attemptNumber] on,
    each after its delay. *)
Fixpoint failedAttempts (input : string) (byoOpenAIKey : option string)
    (attemptNumber n : nat) : list Event :=
  match n with
  | O => []
  | S m =>
      (delayBefore attemptNumber ++ [EvCreateEmbedding input byoOpenAIKey]
         ++ failedAttempts input byoOpenAIKey (S attemptNumber) m)%list
  end.

(** The calls that look the file up, empty its sections, update or
    create it. *)
Definition isResolveEvent (e : Event) : Prop :=
  match e with
  | EvGetFileAtPath _ _ | EvDeleteFileSections _
  | EvUpdateFileMeta _ _ | EvCreateFile _ _ _ => True
  | _ => False
  end.

(** The calls of the embedding loop: the provider and the waits. *)
Definition isProviderEvent (e : Event) : Prop :=
  match e with
  | EvCreateEmbedding _ _ | EvDelay _ => True
  | _ => False
  end.

(** The calls that store the rows and count the usage. *)
Definition isPersistEvent (e : Event) : Prop :=
  match e with
  | EvInsertFileSections _ | EvIncrBy _ _ => True
  | _ => False
  end.

(** The local variables after a stretch of the loop that started from
    [acc] and added [d]. *)
Definition mergeAcc (acc d : @Acc Embedding FileId) : Acc :=
  {| embeddingsTokenCount := (embeddingsTokenCount acc + embeddingsTokenCount d)%Z;
     errors := (errors acc ++ errors d)%list;
     embeddingsData := (embeddingsData acc ++ embeddingsData d)%list |}.

End RunNotions.

(** ** A small world to run the pipeline in

    Documents are parsed line by line (a line that starts with [#] is a
    heading, a line that starts with an opening brace is an MDX expression,
    which the plain parser takes for a paragraph and the MDX parser rejects
    when it is not closed).  The provider rejects every input
    that starts with [bad]; the store knows one file and refuses to create
    another one, and refuses bulk inserts of three rows or more. *)
Module Sample.

Definition parseLine (asMDX : bool) (line : string) : Content :=
  if prefix "#" line then Node "heading" [] line
  else if asMDX && prefix "{" line then Node "mdxFlowExpression" [] line
  else Node "paragraph" [] line.

Definition value (n : Content) : string :=
  match n with Node _ _ v => v end.

Definition endsWith (suffix s : string) : bool :=
  String.eqb
    (substring (String.length s - String.length suffix) (String.length suffix) s)
    suffix.

Definition lib : @Lib string :=
  {| fromMarkdown := fun content asMDX =>
       if asMDX && (prefix "{%" content) then Throw "SyntaxError: could not parse expression"
       else Ok (u_root (map (parseLine asMDX) (split_lines content)));
     filter := fun tree keep =>
       if keep "root"
       then Some (u_root (List.filter (fun n => keep (type n)) (children tree)))
       else None;
     toMarkdown := fun tree => Ok (String.concat LFs (map value (children tree)));
     markdocHtml := fun content => Ok content;
     turndown := fun html => Ok html;
     getFileType := fun name =>
       if endsWith ".mdoc" name then "mdoc"
       else if endsWith ".html" name then "html" else "mdx";
     extractFrontmatter := fun _ => "meta" |}.

Definition truthyId (id : Z) : bool := negb (id =? 0)%Z.

Definition env : @Env string (list Z) string Z :=
  {| getFileAtPath := fun _ _ path =>
       if String.eqb path "docs/known.md" then Some 7%Z else None;
     createFile := fun _ _ path _ =>
       if String.eqb path "docs/denied.md" then None else Some 8%Z;
     createEmbedding := fun _ input _ =>
       if prefix "bad" input then Throw "Error: 429"
       else Ok {| data := [[1; 2]%Z];
                  usage := Some {| total_tokens := Some (Z.of_nat (String.length input)) |} |};
     insertError := fun _ rows =>
       if (3 <=? List.length rows)%nat then Some "payload too large" else None;
     typeError := fun p =>
       "TypeError: Cannot read properties of undefined (reading '" ++ p ++ "')" |}.

Definition CONTEXT_TOKENS_CUTOFF : Z := 100.
Definition MIN_CONTENT_LENGTH : Z := 5.

Definition run (file : FileData)
  : result (list ErrorEntry) * @Trace string (list Z) string Z :=
  generateFileEmbeddings truthyId lib CONTEXT_TOKENS_CUTOFF MIN_CONTENT_LENGTH
    env "project" file None [].

End Sample.

(** Documents for the runs. *)
Module Docs.

(** A file the store knows, with one section. *)
Definition known : FileData :=
  {| path := "docs/known.md"; name := "known.md";
     content := "# Title" ++ LFs ++ "hello world" |}.

(** A file the store neither knows nor creates. *)
Definition denied : FileData :=
  {| path := "docs/denied.md"; name := "denied.md";
     content := "# Title" ++ LFs ++ "hello world" |}.

(** A new file with three sections. *)
Definition three : FileData :=
  {| path := "docs/three.md"; name := "three.md";
     content := "# One" ++ LFs ++ "first text" ++ LFs ++ "# Two" ++ LFs
                  ++ "second text" ++ LFs ++ "# Three" ++ LFs ++ "third text" |}.

End Docs.

(** ** Further notions *)

(** The lines of a list, each after a line feed. *)
Definition lfJoin (lines : list string) : string :=
  fold_right (fun l acc => LFs ++ l ++ acc) "" lines.

(** A string that is empty or starts with a line feed. *)
Definition emptyOrLF (s : string) : Prop :=
  s = "" \/ exists r, s = String LF r.

(** What the reduce of [splitTreeBy] computes, read forwards: the sections
    of [nodes] when [current] is the section being filled. *)
Fixpoint sectionsFrom (predicate : Content -> bool) (current : Root)
    (nodes : list Content) : list Root :=
  match nodes with
  | [] => [current]
  | n :: ns =>
      if predicate n then current :: sectionsFrom predicate (u_root [n]) ns
      else sectionsFrom predicate {| children := children current ++ [n] |} ns
  end.

(** A section that starts with [h] and holds no other node the predicate
    picks. *)
Definition sectionHeadedBy (predicate : Content -> bool) (h : Content)
    (sec : Root) : Prop :=
  exists t, children sec = h :: t /\ forallb (fun n => negb (predicate n)) t = true.

(** A section that starts with a node the predicate picks and holds no
    other one. *)
Definition sectionAtBoundary (predicate : Content -> bool) (sec : Root) : Prop :=
  exists h, predicate h = true /\ sectionHeadedBy predicate h sec.

(** The shape of the flushed pieces and of the buffer while the section is
    read: before the first flush the buffer is empty or starts with a line
    feed; after it, so does the first piece, and the later pieces and the
    buffer are not empty. *)
Definition piecesShape (subs : list string) (acc : string) : Prop :=
  (subs = [] /\ emptyOrLF acc)
  \/ (exists first rest,
        subs = first :: rest /\ emptyOrLF first
        /\ Forall (fun p => p <> "") rest /\ acc <> "").

Section LoopNotions.

Context {Meta Embedding ProjectId FileId : Type}.

(** A chunk the loop does not skip: [input.length < MIN_CONTENT_LENGTH]
    is false for it. *)
Definition qualifies (MIN_CONTENT_LENGTH : Z) (section : string) : bool :=
  negb (Z.of_nat (String.length (replaceLF section)) <? MIN_CONTENT_LENGTH)%Z.


(** The number of calls to the provider in a history. *)
Definition providerCalls (evs : list (@Event Meta Embedding ProjectId FileId)) : nat :=
  List.length
    (List.filter (fun e => match e with EvCreateEmbedding _ _ => true | _ => false end)
       evs).

(** A wait of [10000 * 2 ^ k] milliseconds with [k] below [m]. *)
Definition delayBelow (m : nat) (e : @Event Meta Embedding ProjectId FileId) : Prop :=
  match e with
  | EvDelay ms => exists k, (k < m)%nat /\ ms = (10000 * 2 ^ Z.of_nat k)%Z
  | _ => True
  end.

(** A wait between 10 seconds and 2560 seconds. *)
Definition delayInRange (e : @Event Meta Embedding ProjectId FileId) : Prop :=
  match e with
  | EvDelay ms => (10000 <= ms <= 2560000)%Z
  | _ => True
  end.

(** A call that creates a file. *)
Definition isCreateFile (e : @Event Meta Embedding ProjectId FileId) : Prop :=
  match e with
  | EvCreateFile _ _ _ => True
  | _ => False
  end.

End LoopNotions.

(** The same parsers with a Markdoc renderer that rejects every tag. *)
Module Strict.

Definition lib : @Lib string :=
  {| fromMarkdown := fromMarkdown Sample.lib;
     filter := filter Sample.lib;
     toMarkdown := toMarkdown Sample.lib;
     markdocHtml := fun content =>
       if prefix "{%" content then Throw "Error: unknown tag" else Ok content;
     turndown := turndown Sample.lib;
     getFileType := getFileType Sample.lib;
     extractFrontmatter := extractFrontmatter Sample.lib |}.

End Strict.

(** A provider that throws until it has been called twice, and store
    answers as in [Sample]. *)
Module Flaky.

Definition env : @Env string (list Z) string Z :=
  {| getFileAtPath := getFileAtPath Sample.env;
     createFile := createFile Sample.env;
     createEmbedding := fun t input _ =>
       if (providerCalls t <? 2)%nat then Throw "Error: 429"
       else Ok {| data := [[1; 2]%Z];
                  usage := Some {| total_tokens := Some (Z.of_nat (String.length input)) |} |};
     insertError := insertError Sample.env;
     typeError := typeError Sample.env |}.

End Flaky.

(** A provider whose responses report their tokens and carry no
    embedding. *)
Module Hollow.

Definition env : @Env string (list Z) string Z :=
  {| getFileAtPath := getFileAtPath Sample.env;
     createFile := createFile Sample.env;
     createEmbedding := fun _ input _ =>
       Ok {| data := [];
             usage := Some {| total_tokens := Some (Z.of_nat (String.length input)) |} |};
     insertError := insertError Sample.env;
     typeError := typeError Sample.env |}.

End Hollow.

Module MoreDocs.

(** A file the store knows whose only section is shorter than the
    minimum. *)
Definition tiny : FileData :=
  {| path := "docs/known.md"; name := "known.md"; content := "# T" |}.

End MoreDocs.

(** * Properties *)

(** ** Numbers and strings *)

Lemma Qltb_lt (x y : Q) : Qltb x y = true <-> x < y.
Proof.
  unfold Qltb. rewrite negb_true_iff. split; intros H.
  - apply Qnot_le_lt. intros Hle. apply Qle_bool_iff in Hle. congruence.
  - destruct (Qle_bool y x) eqn:E; trivial.
    apply Qle_bool_iff in E. exfalso. exact (Qlt_not_le _ _ H E).
Qed.

Lemma Qltb_ge (x y : Q) : Qltb x y = false <-> y <= x.
Proof.
  unfold Qltb. rewrite negb_false_iff. apply Qle_bool_iff.
Qed.

Lemma jslength_nonneg (s : string) : 0 <= jslength s.
Proof.
  unfold jslength. change 0 with (inject_Z 0). rewrite <- Zle_Qle. lia.
Qed.

Lemma estimatedTokens_nonneg (s : string) : 0 <= estimatedTokens s.
Proof.
  unfold estimatedTokens. pose proof (jslength_nonneg s) as H.
  unfold Qdiv. apply Qmult_le_0_compat; [exact H | discriminate].
Qed.

Lemma estimatedTokens_pos (s : string) : 0 < estimatedTokens s -> s <> EmptyString.
Proof.
  intros H ->. vm_compute in H. discriminate.
Qed.

Lemma split_lines_nonempty (s : string) : split_lines s <> [].
Proof.
  induction s as [|c r IH]; simpl; [discriminate|].
  destruct (Ascii.eqb c LF); [discriminate|].
  destruct (split_lines r); discriminate.
Qed.

Lemma split_lines_noLF (s : string) :
  Forall (fun l => noLF l = true) (split_lines s).
Proof.
  induction s as [|c r IH]; simpl.
  - repeat constructor.
  - destruct (Ascii.eqb c LF) eqn:E.
    + constructor; [reflexivity | exact IH].
    + destruct (split_lines r) as [|h t].
      * constructor; [simpl; rewrite E; reflexivity | constructor].
      * inversion IH; subst. constructor; [simpl; rewrite E; simpl; assumption | assumption].
Qed.

Lemma split_lines_single (s : string) : noLF s = true -> split_lines s = [s].
Proof.
  induction s as [|c r IH]; simpl; [reflexivity|].
  intros H. apply andb_true_iff in H as [Hc Hr].
  apply negb_true_iff in Hc. rewrite Hc, (IH Hr). reflexivity.
Qed.

Lemma split_lines_app (a b : string) :
  split_lines (a ++ LFs ++ b) = (split_lines a ++ split_lines b)%list.
Proof.
  induction a as [|c r IH]; simpl.
  - reflexivity.
  - destruct (Ascii.eqb c LF).
    + simpl. f_equal. exact IH.
    + change (r ++ String LF b) with (r ++ LFs ++ b). rewrite IH.
      pose proof (split_lines_nonempty r) as Hne.
      destruct (split_lines r); [contradiction | reflexivity].
Qed.

Lemma noLF_letters (n : nat) : noLF (letters n) = true.
Proof. induction n; simpl; trivial. Qed.

Lemma length_letters (n : nat) : String.length (letters n) = n.
Proof. induction n; simpl; congruence. Qed.

(** ** The budget sub-splitter *)

Example split_lines_ex :
  split_lines ("ab" ++ LFs ++ LFs ++ "c" ++ LFs) = ["ab"; ""; "c"; ""].
Proof. reflexivity. Qed.

Example split_lines_empty : split_lines "" = [""].
Proof. reflexivity. Qed.

Example splitWithinTokenCutoff_two_pieces :
  splitWithinTokenCutoff 5
    ("aaaaaaaa" ++ LFs ++ "bbbbbbb" ++ LFs ++ "cccccccc" ++ LFs ++ "d")
  = [LFs ++ "aaaaaaaa" ++ LFs ++ "bbbbbbb"; "cccccccc" ++ LFs ++ "d"].
Proof. reflexivity. Qed.

Lemma TOKEN_CUTOFF_ADJUSTED_pos (C : Z) : (0 < C)%Z -> 0 < TOKEN_CUTOFF_ADJUSTED C.
Proof.
  intros H. unfold TOKEN_CUTOFF_ADJUSTED.
  assert (0 < inject_Z C) by (change 0 with (inject_Z 0); rewrite <- Zlt_Qlt; exact H).
  lra.
Qed.

Lemma linesTokens_snoc (ls : list string) (l : string) :
  linesTokens (ls ++ [l]) == linesTokens ls + estimatedTokens l.
Proof.
  induction ls as [|x ls IH]; simpl.
  - lra.
  - rewrite IH. lra.
Qed.

Lemma piecesLines_snoc (ps : list string) (p : string) :
  piecesLines (ps ++ [p]) = (piecesLines ps ++ split_lines p)%list.
Proof.
  unfold piecesLines. rewrite map_app, concat_app. simpl.
  rewrite app_nil_r. reflexivity.
Qed.

Lemma tl_split_lines_snoc (a line : string) :
  noLF line = true ->
  tl (split_lines (a ++ LFs ++ line)) = (tl (split_lines a) ++ [line])%list.
Proof.
  intros H. rewrite split_lines_app, (split_lines_single line H).
  pose proof (split_lines_nonempty a).
  destruct (split_lines a); [contradiction | reflexivity].
Qed.

(** The two branches of an iteration. *)
Lemma splitStep_cases (B : Q) (st : SplitState) (line : string) :
  (accTokenCounter st + estimatedTokens line < B
   /\ splitStep B st line =
        {| subSections := subSections st;
           accTokenCounter := accTokenCounter st + estimatedTokens line;
           accLines := accLines st ++ LFs ++ line |})
  \/
  (B <= accTokenCounter st + estimatedTokens line
   /\ splitStep B st line =
        {| subSections := (subSections st ++ [accLines st])%list;
           accTokenCounter := 0;
           accLines := line |}).
Proof.
  unfold splitStep, estimatedTokens.
  destruct (Qltb (accTokenCounter st + jslength line / 4) B) eqn:E.
  - left. split; [apply Qltb_lt; exact E | reflexivity].
  - right. split; [apply Qltb_ge; exact E | reflexivity].
Qed.

Lemma splitLoop_cons (B : Q) (l : string) (ls : list string) (st : SplitState) :
  splitLoop B (l :: ls) st = splitLoop B ls (splitStep B st l).
Proof. reflexivity. Qed.

Lemma splitStep_budgetInv (B : Q) (st : SplitState) (line : string) :
  0 < B -> noLF line = true ->
  budgetInv B st -> budgetInv B (splitStep B st line).
Proof.
  intros HB Hline (Hacc & Hsubs & Hbuf).
  destruct (splitStep_cases B st line) as [[Hlt ->] | [Hge ->]];
    unfold budgetInv; simpl.
  - repeat split; trivial.
    change (String LF line) with (LFs ++ line).
    rewrite (tl_split_lines_snoc _ _ Hline), linesTokens_snoc, Hbuf. reflexivity.
  - repeat split; trivial.
    + apply Forall_app. split; trivial.
      constructor; [rewrite Hbuf; exact Hacc | constructor].
    + rewrite (split_lines_single line Hline). reflexivity.
Qed.

Lemma splitLoop_budgetInv (B : Q) (lines : list string) :
  0 < B -> Forall (fun l => noLF l = true) lines ->
  forall st, budgetInv B st -> budgetInv B (splitLoop B lines st).
Proof.
  intros HB Hlines. induction Hlines as [|l ls Hl _ IH]; intros st Hst.
  - exact Hst.
  - rewrite splitLoop_cons. apply IH. apply splitStep_budgetInv; assumption.
Qed.

Lemma budgetInv_init (B : Q) : 0 < B -> budgetInv B splitInit.
Proof.
  intros HB. unfold budgetInv, splitInit; simpl.
  repeat split; trivial; reflexivity.
Qed.

(** The lines of the flushed pieces and of the buffer are the lines they had
    before, followed by the lines read. *)
Lemma splitLoop_lines (B : Q) (lines : list string) :
  Forall (fun l => noLF l = true) lines ->
  forall st,
    (piecesLines (subSections (splitLoop B lines st))
       ++ split_lines (accLines (splitLoop B lines st)))%list
    = ((piecesLines (subSections st) ++ split_lines (accLines st)) ++ lines)%list.
Proof.
  intros Hlines. induction Hlines as [|l ls Hl _ IH]; intros st.
  - simpl. rewrite app_nil_r. reflexivity.
  - rewrite splitLoop_cons, IH.
    destruct (splitStep_cases B st l) as [[_ ->] | [_ ->]]; simpl.
    + change (String LF l) with (LFs ++ l).
      rewrite split_lines_app, (split_lines_single l Hl).
      rewrite <- !app_assoc. reflexivity.
    + rewrite piecesLines_snoc, (split_lines_single l Hl).
      rewrite <- !app_assoc. reflexivity.
Qed.

Lemma splitStep_truthy (B : Q) (st : SplitState) (line : string) :
  accTokenCounter st < B ->
  truthy_string (accLines (splitStep B st line)) = true.
Proof.
  intros Hacc.
  destruct (splitStep_cases B st line) as [[_ ->] | [Hge ->]]; simpl.
  - destruct (accLines st); reflexivity.
  - assert (Hpos : 0 < estimatedTokens line) by lra.
    apply estimatedTokens_pos in Hpos. destruct line; [contradiction | reflexivity].
Qed.

Lemma splitLoop_truthy (B : Q) (lines : list string) :
  0 < B -> Forall (fun l => noLF l = true) lines ->
  forall st, budgetInv B st ->
    lines <> [] \/ truthy_string (accLines st) = true ->
    truthy_string (accLines (splitLoop B lines st)) = true.
Proof.
  intros HB Hlines. induction Hlines as [|l ls Hl Hls IH]; intros st Hst Hor.
  - destruct Hor as [H | H]; [contradiction | exact H].
  - rewrite splitLoop_cons. apply IH.
    + apply splitStep_budgetInv; assumption.
    + right. apply splitStep_truthy. apply Hst.
Qed.

Lemma splitLoop_prefix (B : Q) (lines : list string) (st : SplitState) :
  exists extra, subSections (splitLoop B lines st) = (subSections st ++ extra)%list.
Proof.
  revert st. induction lines as [|l ls IH]; intros st.
  - exists []. simpl. rewrite app_nil_r. reflexivity.
  - destruct (IH (splitStep B st l)) as [extra Hextra].
    rewrite splitLoop_cons, Hextra.
    destruct (splitStep_cases B st l) as [[_ ->] | [_ ->]]; simpl.
    + exists extra. reflexivity.
    + exists (accLines st :: extra). rewrite <- app_assoc. reflexivity.
Qed.

(** On its line-splitting path, with a positive budget, the sub-splitter
    returns the flushed pieces followed by the last buffer. *)
Lemma splitWithinTokenCutoff_split_path (C : Z) (section : string) :
  (0 < C)%Z ->
  TOKEN_CUTOFF_ADJUSTED C <= estimatedTokens section ->
  let st := splitLoop (TOKEN_CUTOFF_ADJUSTED C) (split_lines section) splitInit in
  splitWithinTokenCutoff C section = (subSections st ++ [accLines st])%list
  /\ budgetInv (TOKEN_CUTOFF_ADJUSTED C) st.
Proof.
  intros HC Hge st.
  pose proof (TOKEN_CUTOFF_ADJUSTED_pos C HC) as HB.
  assert (Hinv : budgetInv (TOKEN_CUTOFF_ADJUSTED C) st).
  { apply splitLoop_budgetInv; auto using split_lines_noLF, budgetInv_init. }
  split; [|exact Hinv].
  unfold splitWithinTokenCutoff.
  apply Qltb_ge in Hge. unfold estimatedTokens in Hge. rewrite Hge.
  unfold splitFinish. fold st.
  assert (Ht : truthy_string (accLines st) = true).
  { apply splitLoop_truthy; auto using split_lines_noLF, budgetInv_init.
    left. apply split_lines_nonempty. }
  rewrite Ht. reflexivity.
Qed.

Lemma estimatedTokens_String (c : ascii) (s : string) :
  estimatedTokens (String c s) == estimatedTokens s + (1 # 4).
Proof.
  unfold estimatedTokens, jslength. simpl String.length.
  rewrite Nat2Z.inj_succ, <- Z.add_1_r, inject_Z_plus.
  change (inject_Z 1) with 1. field.
Qed.

Lemma linesTokens_nonneg (ls : list string) : 0 <= linesTokens ls.
Proof.
  induction ls as [|l ls IH]; simpl; [lra|].
  pose proof (estimatedTokens_nonneg l). lra.
Qed.

Lemma linesTokens_cons (l : string) (ls : list string) :
  linesTokens (l :: ls) = estimatedTokens l + linesTokens ls.
Proof. reflexivity. Qed.

Lemma estimatedTokens_empty : estimatedTokens "" == 0.
Proof. reflexivity. Qed.

(** The lines of a string hold no more characters than the string. *)
Lemma linesTokens_split_lines (s : string) :
  linesTokens (split_lines s) <= estimatedTokens s.
Proof.
  induction s as [|c r IH]; simpl split_lines.
  - rewrite linesTokens_cons, estimatedTokens_empty. simpl. lra.
  - rewrite estimatedTokens_String. destruct (Ascii.eqb c LF).
    + rewrite linesTokens_cons, estimatedTokens_empty. lra.
    + destruct (split_lines r) as [|h t].
      * rewrite linesTokens_cons, estimatedTokens_String, estimatedTokens_empty.
        pose proof (estimatedTokens_nonneg r). simpl. lra.
      * rewrite linesTokens_cons in *. rewrite estimatedTokens_String. lra.
Qed.

Lemma linesTokens_tl (ls : list string) : linesTokens (tl ls) <= linesTokens ls.
Proof.
  destruct ls as [|l ls]; [simpl; lra|].
  rewrite linesTokens_cons. pose proof (estimatedTokens_nonneg l). simpl tl. lra.
Qed.

Lemma splitWithinTokenCutoff_short (C : Z) (section : string) :
  estimatedTokens section < TOKEN_CUTOFF_ADJUSTED C ->
  splitWithinTokenCutoff C section = [section].
Proof.
  intros H. unfold splitWithinTokenCutoff.
  apply Qltb_lt in H. unfold estimatedTokens in H. rewrite H. reflexivity.
Qed.

(** A single line of [4 * C] characters is not under the budget, and the
    sub-splitter returns it whole after an empty piece: no positive cut-off
    keeps every piece under the budget. *)
Lemma splitWithinTokenCutoff_long_line (C : Z) :
  (0 < C)%Z ->
  let section := letters (Z.to_nat (4 * C)) in
  splitWithinTokenCutoff C section = [""; section]
  /\ TOKEN_CUTOFF_ADJUSTED C <= estimatedTokens section.
Proof.
  intros HC section.
  assert (Hest : estimatedTokens section == inject_Z C).
  { unfold section, estimatedTokens, jslength. rewrite length_letters.
    rewrite Z2Nat.id by lia. rewrite inject_Z_mult. change (inject_Z 4) with 4. field. }
  assert (Hpos : 0 < inject_Z C)
    by (change 0 with (inject_Z 0); rewrite <- Zlt_Qlt; exact HC).
  assert (Hge : TOKEN_CUTOFF_ADJUSTED C <= estimatedTokens section).
  { rewrite Hest. unfold TOKEN_CUTOFF_ADJUSTED. lra. }
  split; [|exact Hge].
  destruct (splitWithinTokenCutoff_split_path C section HC Hge) as [-> _].
  rewrite (split_lines_single section) by apply noLF_letters.
  rewrite splitLoop_cons.
  destruct (splitStep_cases (TOKEN_CUTOFF_ADJUSTED C) splitInit section)
    as [[Hlt _] | [_ ->]].
  - simpl in Hlt. lra.
  - reflexivity.
Qed.

(** [C4] A section whose estimated token count is under the budget is
    returned unchanged, as the only piece. *)
Theorem splitWithinTokenCutoff_under_budget (C : Z) (s : string) :
  estimatedTokens s < TOKEN_CUTOFF_ADJUSTED C ->
  splitWithinTokenCutoff C s = [s].
Proof.
  exact (splitWithinTokenCutoff_short C s).
Qed.

Lemma splitWithinTokenCutoff_under_budget_witness :
  estimatedTokens "# Title" < TOKEN_CUTOFF_ADJUSTED 5
  /\ splitWithinTokenCutoff 5 "# Title" = ["# Title"].
Proof.
  assert (H : estimatedTokens "# Title" < TOKEN_CUTOFF_ADJUSTED 5) by reflexivity.
  split; [exact H | exact (splitWithinTokenCutoff_under_budget 5 "# Title" H)].
Defined.

(** [C10] On the line-splitting path, when the first line alone meets or
    exceeds the budget, the first piece returned is the empty string. *)
Theorem splitWithinTokenCutoff_first_piece_empty
    (C : Z) (s first : string) (rest : list string) :
  split_lines s = first :: rest ->
  TOKEN_CUTOFF_ADJUSTED C <= estimatedTokens s ->
  TOKEN_CUTOFF_ADJUSTED C <= estimatedTokens first ->
  exists pieces, splitWithinTokenCutoff C s = "" :: pieces.
Proof.
  intros Hlines Hs Hfirst.
  unfold splitWithinTokenCutoff.
  apply Qltb_ge in Hs. unfold estimatedTokens in Hs. rewrite Hs.
  rewrite Hlines, splitLoop_cons.
  destruct (splitStep_cases (TOKEN_CUTOFF_ADJUSTED C) splitInit first)
    as [[Hlt _] | [_ ->]].
  - simpl in Hlt. lra.
  - match goal with |- context [splitLoop ?B ?l ?st] =>
      destruct (splitLoop_prefix B l st) as [extra Hextra] end.
    unfold splitFinish. rewrite Hextra. simpl.
    match goal with |- context [truthy_string ?x] => destruct (truthy_string x) end;
      eexists; reflexivity.
Qed.

Lemma splitWithinTokenCutoff_first_piece_empty_witness :
  exists pieces,
    splitWithinTokenCutoff 5 ("aaaaaaaaaaaaaaaa" ++ LFs ++ "b") = "" :: pieces.
Proof.
  apply (splitWithinTokenCutoff_first_piece_empty 5
           ("aaaaaaaaaaaaaaaa" ++ LFs ++ "b") "aaaaaaaaaaaaaaaa" ["b"]).
  - reflexivity.
  - vm_compute. discriminate.
  - vm_compute. discriminate.
Defined.

(** A section of one line of sixteen characters, with a cut-off of 5 (a
    budget of 4 tokens): the line comes back whole, and it is not under the
    budget. *)
Lemma splitWithinTokenCutoff_piece_over_budget :
  splitWithinTokenCutoff 5 "aaaaaaaaaaaaaaaa" = [""; "aaaaaaaaaaaaaaaa"]
  /\ In "aaaaaaaaaaaaaaaa" (splitWithinTokenCutoff 5 "aaaaaaaaaaaaaaaa")
  /\ ~ estimatedTokens "aaaaaaaaaaaaaaaa" < TOKEN_CUTOFF_ADJUSTED 5.
Proof.
  split; [reflexivity|]. split.
  - right. left. reflexivity.
  - vm_compute. discriminate.
Qed.

(** After a flush the counter restarts at zero although the buffer holds
    the line that did not fit: three lines of three tokens each, with a
    budget of four, give a second piece of more than six. *)
Example splitWithinTokenCutoff_counter_restart :
  splitWithinTokenCutoff 5
    ("aaaaaaaaaaaa" ++ LFs ++ "bbbbbbbbbbbb" ++ LFs ++ "cccccccccccc")
  = [LFs ++ "aaaaaaaaaaaa"; "bbbbbbbbbbbb" ++ LFs ++ "cccccccccccc"]
  /\ TOKEN_CUTOFF_ADJUSTED 5 < estimatedTokens ("bbbbbbbbbbbb" ++ LFs ++ "cccccccccccc").
Proof. split; reflexivity. Qed.

(** The lines a piece holds after its first one fit the budget. *)
Lemma splitWithinTokenCutoff_tail_budget (C : Z) (s piece : string) :
  (0 < C)%Z ->
  In piece (splitWithinTokenCutoff C s) ->
  linesTokens (tl (split_lines piece)) < TOKEN_CUTOFF_ADJUSTED C.
Proof.
  intros HC Hin.
  destruct (Qlt_le_dec (estimatedTokens s) (TOKEN_CUTOFF_ADJUSTED C)) as [Hlt | Hge].
  - rewrite (splitWithinTokenCutoff_short C s Hlt) in Hin.
    destruct Hin as [<- | []].
    pose proof (linesTokens_tl (split_lines s)).
    pose proof (linesTokens_split_lines s). lra.
  - destruct (splitWithinTokenCutoff_split_path C s HC Hge) as [Heq (Hacc & Hsubs & Hbuf)].
    rewrite Heq in Hin. apply in_app_or in Hin as [Hin | [<- | []]].
    + rewrite Forall_forall in Hsubs. exact (Hsubs piece Hin).
    + rewrite Hbuf. exact Hacc.
Qed.

Lemma trimSections_flat_map (C : Z) (sections : list string) :
  trimSections C sections = flat_map (splitWithinTokenCutoff C) sections.
Proof.
  unfold trimSections.
  assert (H : forall acc,
             fold_left (fun acc value => (acc ++ splitWithinTokenCutoff C value)%list)
               sections acc
             = (acc ++ flat_map (splitWithinTokenCutoff C) sections)%list).
  { induction sections as [|s ss IH]; intros acc; simpl.
    - rewrite app_nil_r. reflexivity.
    - rewrite IH, <- app_assoc. reflexivity. }
  apply H.
Qed.

(** The chunks of a file are the pieces of its sections, so the same bound
    holds for every chunk handed to the embedding loop. *)
Lemma trimSections_tail_budget (C : Z) (sections : list string) (chunk : string) :
  (0 < C)%Z ->
  In chunk (trimSections C sections) ->
  linesTokens (tl (split_lines chunk)) < TOKEN_CUTOFF_ADJUSTED C.
Proof.
  intros HC Hin. rewrite trimSections_flat_map in Hin.
  apply in_flat_map in Hin as [s [_ Hs]].
  exact (splitWithinTokenCutoff_tail_budget C s chunk HC Hs).
Qed.

(** [C1] (as amended) For a positive cut-off, in every piece returned by
    the sub-splitter the lines after the first one have a total estimated
    token count under the budget; and a section under the budget comes back
    as a piece under the budget. *)
Theorem splitWithinTokenCutoff_pieces_budget (C : Z) (s piece : string) :
  (0 < C)%Z ->
  In piece (splitWithinTokenCutoff C s) ->
  linesTokens (tl (split_lines piece)) < TOKEN_CUTOFF_ADJUSTED C
  /\ (estimatedTokens s < TOKEN_CUTOFF_ADJUSTED C ->
      estimatedTokens piece < TOKEN_CUTOFF_ADJUSTED C).
Proof.
  intros HC Hin. split.
  - exact (splitWithinTokenCutoff_tail_budget C s piece HC Hin).
  - intros Hlt. rewrite (splitWithinTokenCutoff_short C s Hlt) in Hin.
    destruct Hin as [<- | []]. exact Hlt.
Qed.

Lemma splitWithinTokenCutoff_pieces_budget_witness :
  linesTokens (tl (split_lines ("cccccccc" ++ LFs ++ "d"))) < TOKEN_CUTOFF_ADJUSTED 5.
Proof.
  refine (proj1 (splitWithinTokenCutoff_pieces_budget 5
           ("aaaaaaaa" ++ LFs ++ "bbbbbbb" ++ LFs ++ "cccccccc" ++ LFs ++ "d")
           ("cccccccc" ++ LFs ++ "d") _ _)).
  - lia.
  - right. left. reflexivity.
Defined.

(** The same section: the lines of the pieces are not the lines of the
    section, an empty line comes first. *)
Lemma splitWithinTokenCutoff_lines_extra :
  piecesLines (splitWithinTokenCutoff 5 "aaaaaaaaaaaaaaaa") = [""; "aaaaaaaaaaaaaaaa"]
  /\ split_lines "aaaaaaaaaaaaaaaa" = ["aaaaaaaaaaaaaaaa"]
  /\ piecesLines (splitWithinTokenCutoff 5 "aaaaaaaaaaaaaaaa")
     <> split_lines "aaaaaaaaaaaaaaaa".
Proof.
  split; [reflexivity|]. split; [reflexivity|]. discriminate.
Qed.

(** [C2] (as amended) For a positive cut-off, the lines of the pieces, piece
    after piece, are the lines of the section in their order, none dropped
    or repeated; when the section is split they come after one empty line. *)
Theorem splitWithinTokenCutoff_lines (C : Z) (s : string) :
  (0 < C)%Z ->
  piecesLines (splitWithinTokenCutoff C s)
  = if Qltb (estimatedTokens s) (TOKEN_CUTOFF_ADJUSTED C)
    then split_lines s
    else "" :: split_lines s.
Proof.
  intros HC.
  destruct (Qltb (estimatedTokens s) (TOKEN_CUTOFF_ADJUSTED C)) eqn:E.
  - apply Qltb_lt in E. rewrite (splitWithinTokenCutoff_short C s E).
    unfold piecesLines. simpl. apply app_nil_r.
  - apply Qltb_ge in E.
    destruct (splitWithinTokenCutoff_split_path C s HC E) as [-> _].
    rewrite piecesLines_snoc, splitLoop_lines by apply split_lines_noLF.
    reflexivity.
Qed.

Lemma splitWithinTokenCutoff_lines_witness :
  piecesLines (splitWithinTokenCutoff 5
     ("aaaaaaaa" ++ LFs ++ "bbbbbbb" ++ LFs ++ "cccccccc" ++ LFs ++ "d"))
  = [""; "aaaaaaaa"; "bbbbbbb"; "cccccccc"; "d"].
Proof.
  exact (splitWithinTokenCutoff_lines 5
     ("aaaaaaaa" ++ LFs ++ "bbbbbbb" ++ LFs ++ "cccccccc" ++ LFs ++ "d")
     ltac:(lia)).
Defined.

(** ** The section splitter *)

Section SplitTree.

Variable predicate : Content -> bool.

Lemma lastTree_snoc (trees : list Root) (t : Root) :
  lastTree (trees ++ [t]) = Some t.
Proof.
  induction trees as [|x trees IH]; simpl; [reflexivity|].
  rewrite IH. destruct (trees ++ [t])%list eqn:E; [|reflexivity].
  destruct trees; discriminate.
Qed.

(** An iteration when the accumulator holds a tree already. *)
Lemma splitTreeStep_snoc (trees : list Root) (t : Root) (node : Content) :
  splitTreeStep predicate (trees ++ [t]) node
  = if predicate node
    then (trees ++ [t; u_root [node]])%list
    else (trees ++ [ {| children := children t ++ [node] |} ])%list.
Proof.
  unfold splitTreeStep. rewrite lastTree_snoc, removelast_last.
  destruct (predicate node); [rewrite <- app_assoc|]; reflexivity.
Qed.

Lemma splitTreeStep_nil (node : Content) :
  splitTreeStep predicate [] node = [u_root [node]].
Proof. reflexivity. Qed.

Lemma concat_children_snoc (trees : list Root) (t : Root) :
  concat (map children (trees ++ [t]))
  = (concat (map children trees) ++ children t)%list.
Proof.
  rewrite map_app, concat_app. simpl. rewrite app_nil_r. reflexivity.
Qed.

(** Every iteration adds the node read at the end of the sections. *)
Lemma splitTreeStep_concat (trees : list Root) (node : Content) :
  concat (map children (splitTreeStep predicate trees node))
  = (concat (map children trees) ++ [node])%list.
Proof.
  destruct trees as [|x xs] using rev_ind.
  - reflexivity.
  - rewrite splitTreeStep_snoc. destruct (predicate node).
    + change [x; u_root [node]] with ([x] ++ [u_root [node]])%list.
      rewrite app_assoc, concat_children_snoc. reflexivity.
    + rewrite !concat_children_snoc. simpl. rewrite app_assoc. reflexivity.
Qed.

Lemma splitTreeStep_length (trees : list Root) (node : Content) :
  trees <> [] ->
  List.length (splitTreeStep predicate trees node)
  = (List.length trees + if predicate node then 1 else 0)%nat.
Proof.
  destruct trees as [|x xs] using rev_ind; [contradiction|]. intros _.
  rewrite splitTreeStep_snoc. destruct (predicate node);
    rewrite !length_app; simpl; lia.
Qed.

Lemma splitTreeStep_nonempty (trees : list Root) (node : Content) :
  splitTreeStep predicate trees node <> [].
Proof.
  destruct trees as [|x xs] using rev_ind; [discriminate|].
  rewrite splitTreeStep_snoc.
  destruct (predicate node); intros H; apply app_eq_nil in H as [_ H]; discriminate.
Qed.

Lemma fold_splitTreeStep_concat (nodes : list Content) (trees : list Root) :
  concat (map children (fold_left (splitTreeStep predicate) nodes trees))
  = (concat (map children trees) ++ nodes)%list.
Proof.
  revert trees. induction nodes as [|n nodes IH]; intros trees; simpl.
  - rewrite app_nil_r. reflexivity.
  - rewrite IH, splitTreeStep_concat, <- app_assoc. reflexivity.
Qed.

Lemma fold_splitTreeStep_length (nodes : list Content) (trees : list Root) :
  trees <> [] ->
  List.length (fold_left (splitTreeStep predicate) nodes trees)
  = (List.length trees + List.length (List.filter predicate nodes))%nat.
Proof.
  revert trees. induction nodes as [|n nodes IH]; intros trees Hne; simpl.
  - lia.
  - rewrite IH by apply splitTreeStep_nonempty.
    rewrite splitTreeStep_length by exact Hne.
    destruct (predicate n); simpl; lia.
Qed.

(** Without a node that satisfies the predicate, the one tree grows. *)
Lemma fold_splitTreeStep_single (nodes : list Content) (t : Root) :
  List.filter predicate nodes = [] ->
  fold_left (splitTreeStep predicate) nodes [t]
  = [ {| children := children t ++ nodes |} ].
Proof.
  revert t. induction nodes as [|n nodes IH]; intros t Hnone; simpl.
  - rewrite app_nil_r. destruct t; reflexivity.
  - simpl in Hnone. destruct (predicate n) eqn:E; [discriminate|].
    change [t] with ([] ++ [t])%list. rewrite splitTreeStep_snoc, E. simpl.
    rewrite (IH _ Hnone). simpl. rewrite <- app_assoc. reflexivity.
Qed.

End SplitTree.

(** A tree without top-level children has no heading, and the splitter
    returns no section for it. *)
Lemma splitTreeBy_empty_tree :
  countHeadings (children (u_root [])) = 0%nat
  /\ splitTreeBy (u_root []) isHeading = []
  /\ List.length (splitTreeBy (u_root []) isHeading) <> 1%nat.
Proof.
  split; [reflexivity|]. split; [reflexivity|]. discriminate.
Qed.

(** [C3] (as amended) For a tree with [k] headings among its top-level
    children the splitter returns [k] sections, and one more when the first
    child is not a heading; the sections' nodes, section after section, are
    the children of the tree in their order; a tree with children and no
    heading gives one section, the tree itself. *)
Theorem splitTreeBy_sections (tree : Root) :
  List.length (splitTreeBy tree isHeading)
    = (countHeadings (children tree) + leadingSection (children tree))%nat
  /\ concat (map children (splitTreeBy tree isHeading)) = children tree
  /\ (countHeadings (children tree) = 0%nat -> children tree <> [] ->
      splitTreeBy tree isHeading = [tree]).
Proof.
  unfold splitTreeBy, countHeadings. repeat split.
  - destruct (children tree) as [|n nodes]; [reflexivity|].
    simpl fold_left. rewrite splitTreeStep_nil.
    rewrite fold_splitTreeStep_length by discriminate.
    simpl. destruct (isHeading n); simpl; lia.
  - apply fold_splitTreeStep_concat.
  - intros Hzero Hne. destruct tree as [nodes]. simpl in *.
    destruct nodes as [|n nodes]; [contradiction|].
    simpl fold_left. rewrite splitTreeStep_nil.
    apply length_zero_iff_nil in Hzero. simpl in Hzero.
    destruct (isHeading n); [discriminate|].
    rewrite (fold_splitTreeStep_single _ _ _ Hzero). reflexivity.
Qed.

Lemma splitTreeBy_sections_witness :
  splitTreeBy (u_root [Node "paragraph" [] "a"; Node "code" [] "b"]) isHeading
  = [u_root [Node "paragraph" [] "a"; Node "code" [] "b"]].
Proof.
  refine (proj2 (proj2 (splitTreeBy_sections
            (u_root [Node "paragraph" [] "a"; Node "code" [] "b"]))) _ _).
  - reflexivity.
  - discriminate.
Defined.

Example splitTreeBy_two_headings :
  splitTreeBy
    (u_root [Node "paragraph" [] "p"; Node "heading" [] "h1";
             Node "heading" [] "h2"; Node "paragraph" [] "q"]) isHeading
  = [u_root [Node "paragraph" [] "p"];
     u_root [Node "heading" [] "h1"];
     u_root [Node "heading" [] "h2"; Node "paragraph" [] "q"]].
Proof. reflexivity. Qed.

(** ** The normaliser *)

Section Normaliser.

Context {Meta : Type}.
Variable lib : @Lib Meta.
Variable CONTEXT_TOKENS_CUTOFF : Z.

(** Whatever throws inside the [try], the Markdoc path is taken. *)
Lemma fileSections_fallback (file : FileData) (e : string) :
  getFileType lib (name file) <> "mdoc" ->
  getFileType lib (name file) <> "html" ->
  splitMarkdownIntoSections lib (content file) true = Throw e ->
  fileSections lib file = splitMarkdocIntoSections lib (content file).
Proof.
  intros Hmdoc Hhtml Hthrow. unfold fileSections.
  apply String.eqb_neq in Hmdoc. apply String.eqb_neq in Hhtml.
  rewrite Hmdoc, Hhtml, Hthrow. reflexivity.
Qed.

Lemma splitMarkdownIntoSections_parse_throws (content : string) (asMDX : bool)
    (e : string) :
  fromMarkdown lib content asMDX = Throw e ->
  splitMarkdownIntoSections lib content asMDX = Throw e.
Proof.
  intros H. unfold splitMarkdownIntoSections. rewrite H. reflexivity.
Qed.

(** [C8] For a file that is neither Markdoc nor HTML by its type, when
    the MDX parse throws, the same content goes through the Markdoc path,
    and the file's sections are the ones that path gives, cut to the
    budget; the file fails only when that path throws too. *)
Theorem processFile_mdx_fallback (file : FileData) (e : string) :
  getFileType lib (name file) <> "mdoc" ->
  getFileType lib (name file) <> "html" ->
  fromMarkdown lib (content file) true = Throw e ->
  fileSections lib file = splitMarkdocIntoSections lib (content file)
  /\ processFile lib CONTEXT_TOKENS_CUTOFF file
     = match splitMarkdocIntoSections lib (content file) with
       | Ok sections =>
           Ok {| sections := trimSections CONTEXT_TOKENS_CUTOFF sections;
                 meta := extractFrontmatter lib (content file) |}
       | Throw e' => Throw e'
       end.
Proof.
  intros Hmdoc Hhtml Hparse.
  pose proof (fileSections_fallback file e Hmdoc Hhtml
                (splitMarkdownIntoSections_parse_throws _ _ _ Hparse)) as Hfs.
  split; [exact Hfs|].
  unfold processFile. rewrite Hfs.
  destruct (splitMarkdocIntoSections lib (content file)); reflexivity.
Qed.

End Normaliser.

Lemma processFile_mdx_fallback_witness :
  let file := {| path := "docs/tags.md"; name := "tags.md";
                 content := "{% note %}" ++ LFs ++ "# Title" ++ LFs ++ "hello world" |} in
  fileSections Sample.lib file = splitMarkdocIntoSections Sample.lib (content file)
  /\ processFile Sample.lib 100 file
     = Ok {| sections := ["{% note %}"; "# Title" ++ LFs ++ "hello world"];
             meta := "meta" |}.
Proof.
  intros file.
  refine (processFile_mdx_fallback Sample.lib 100 file
            "SyntaxError: could not parse expression" _ _ _).
  - discriminate.
  - discriminate.
  - reflexivity.
Defined.

(** ** The embedding loop and the stores *)

Section Run.

Context {Meta Embedding ProjectId FileId : Type}.
Variable truthyId : FileId -> bool.
Variable lib : @Lib Meta.
Variable CONTEXT_TOKENS_CUTOFF : Z.
Variable MIN_CONTENT_LENGTH : Z.
Variable env : @Env Meta Embedding ProjectId FileId.

Local Abbreviation Trace := (@Trace Meta Embedding ProjectId FileId).
Local Abbreviation Acc := (@Acc Embedding FileId).
Local Abbreviation request := (createEmbeddingRequest env).

Lemma delay_step (startingDelay : Z) (a : nat) (t : Trace) :
  startingDelay = 10000%Z ->
  (match a with
   | O => ret tt
   | S k => emit (EvDelay (startingDelay * timeMultiple ^ Z.of_nat k))
   end) t = (tt, (t ++ delayBefore a)%list).
Proof.
  intros ->. destruct a; unfold ret, emit; simpl; [rewrite app_nil_r|]; reflexivity.
Qed.

(** One attempt of [backOff], and what follows it. *)
Lemma backOffFrom_S {A : Type} (req : IO (result A)) (n a : nat) (t : Trace) :
  backOffFrom req 10000 (S n) a t
  = match req (t ++ delayBefore a)%list with
    | (Ok r, t') => (Ok r, t')
    | (Throw e, t') =>
        match n with
        | O => (Throw e, t')
        | S _ => backOffFrom req 10000 n (S a) t'
        end
    end.
Proof.
  cbn [backOffFrom]. unfold bind at 1. rewrite delay_step by reflexivity.
  unfold bind. destruct (req (t ++ delayBefore a)%list) as [[r | e] t'].
  - reflexivity.
  - destruct n; reflexivity.
Qed.

Lemma request_eq (input : string) (key : option string) (t : Trace) :
  request input key t
  = (createEmbedding env t input key, (t ++ [EvCreateEmbedding input key])%list).
Proof. reflexivity. Qed.

(** When every attempt throws, [backOff] makes them all and throws the
    last error. *)
Lemma backOffFrom_all_fail (input : string) (key : option string) :
  forall (n a : nat) (t : Trace) (errs : nat -> string),
    (forall j, (j < S n)%nat ->
       createEmbedding env
         (t ++ failedAttempts input key a j ++ delayBefore (a + j))%list input key
       = Throw (errs j)) ->
    backOffFrom (request input key) 10000 (S n) a t
    = (Throw (errs n), (t ++ failedAttempts input key a (S n))%list).
Proof.
  induction n as [|n IH]; intros a t errs H;
    pose proof (H 0%nat ltac:(lia)) as H0; simpl in H0;
    rewrite Nat.add_0_r in H0;
    rewrite backOffFrom_S, request_eq, H0.
  - simpl. rewrite <- app_assoc. reflexivity.
  - rewrite (IH (S a) _ (fun j => errs (S j))).
    + f_equal. cbn [failedAttempts]. rewrite <- !app_assoc. reflexivity.
    + intros j Hj. rewrite <- (H (S j)) by lia.
      f_equal. cbn [failedAttempts]. rewrite <- !app_assoc.
      rewrite Nat.add_succ_r. reflexivity.
Qed.

(** When an attempt returns after [k] that threw, [backOff] returns what
    it returned and makes no other call. *)
Lemma backOffFrom_success (input : string) (key : option string) :
  forall (k n a : nat) (t : Trace) (errs : nat -> string) (res : EmbeddingResult),
    (k < n)%nat ->
    (forall j, (j < k)%nat ->
       createEmbedding env
         (t ++ failedAttempts input key a j ++ delayBefore (a + j))%list input key
       = Throw (errs j)) ->
    createEmbedding env
      (t ++ failedAttempts input key a k ++ delayBefore (a + k))%list input key
    = Ok res ->
    backOffFrom (request input key) 10000 n a t
    = (Ok res,
       (t ++ failedAttempts input key a k ++ delayBefore (a + k)
          ++ [EvCreateEmbedding input key])%list).
Proof.
  induction k as [|k IH]; intros n a t errs res Hk Hfail Hok;
    destruct n as [|n]; try lia; rewrite backOffFrom_S, request_eq.
  - simpl in Hok. rewrite Nat.add_0_r in Hok. rewrite Hok.
    simpl. rewrite Nat.add_0_r, <- app_assoc. reflexivity.
  - pose proof (Hfail 0%nat ltac:(lia)) as H0. simpl in H0.
    rewrite Nat.add_0_r in H0. rewrite H0.
    destruct n as [|n]; [lia|].
    rewrite (IH (S n) (S a) _ (fun j => errs (S j)) res); [| lia | |].
    + f_equal. cbn [failedAttempts]. rewrite <- !app_assoc.
      rewrite Nat.add_succ_r. reflexivity.
    + intros j Hj. rewrite <- (Hfail (S j)) by lia.
      f_equal. cbn [failedAttempts]. rewrite <- !app_assoc.
      rewrite Nat.add_succ_r. reflexivity.
    + rewrite <- Hok. f_equal. cbn [failedAttempts]. rewrite <- !app_assoc.
      rewrite Nat.add_succ_r. reflexivity.
Qed.

(** [backOff] only calls the provider and waits. *)
Lemma backOffFrom_trace (input : string) (key : option string) :
  forall (n a : nat) (t : Trace),
  exists evs,
    snd (backOffFrom (request input key) 10000 n a t) = (t ++ evs)%list
    /\ Forall isProviderEvent evs.
Proof.
  induction n as [|n IH]; intros a t.
  - exists []. simpl. rewrite app_nil_r. split; [reflexivity | constructor].
  - rewrite backOffFrom_S, request_eq.
    assert (Hd : Forall (@isProviderEvent Meta Embedding ProjectId FileId)
                   (delayBefore a ++ [EvCreateEmbedding input key])).
    { apply Forall_app. split; [destruct a; repeat constructor | repeat constructor]. }
    destruct (createEmbedding env (t ++ delayBefore a)%list input key) as [res | e].
    + eexists. split; [simpl; rewrite <- app_assoc; reflexivity | exact Hd].
    + destruct n as [|n'].
      * eexists. split; [simpl; rewrite <- app_assoc; reflexivity | exact Hd].
      * destruct (IH (S a) ((t ++ delayBefore a) ++ [EvCreateEmbedding input key])%list)
          as [evs [Hevs Hall]].
        rewrite Hevs.
        exists ((delayBefore a ++ [EvCreateEmbedding input key]) ++ evs)%list.
        split; [rewrite <- !app_assoc; reflexivity | apply Forall_app; split; assumption].
Qed.

Variable filePath : string.
Variable fileId : FileId.
Variable byoOpenAIKey : option string.

Local Abbreviation step := (embedSection MIN_CONTENT_LENGTH env filePath fileId byoOpenAIKey).
Local Abbreviation loop := (embedLoop MIN_CONTENT_LENGTH env filePath fileId byoOpenAIKey).

Lemma embedLoop_nil (acc : Acc) (t : Trace) : loop [] acc t = (acc, t).
Proof. reflexivity. Qed.

Lemma embedLoop_cons (s : string) (ss : list string) (acc : Acc) (t : Trace) :
  loop (s :: ss) acc t
  = loop ss (fst (step acc s t)) (snd (step acc s t)).
Proof.
  unfold embedLoop. cbn [foldIO]. unfold bind.
  destruct (step acc s t). reflexivity.
Qed.

Lemma embedLoop_app (pre post : list string) (acc : Acc) (t : Trace) :
  loop (pre ++ post) acc t
  = loop post (fst (loop pre acc t)) (snd (loop pre acc t)).
Proof.
  revert acc t. induction pre as [|s pre IH]; intros acc t.
  - reflexivity.
  - simpl app. rewrite !embedLoop_cons. apply IH.
Qed.

Lemma mergeAcc_init_r (acc : Acc) : mergeAcc acc accInit = acc.
Proof.
  destruct acc. unfold mergeAcc, accInit. simpl.
  rewrite Z.add_0_r, !app_nil_r. reflexivity.
Qed.

Lemma mergeAcc_init_l (acc : Acc) : mergeAcc accInit acc = acc.
Proof. destruct acc. reflexivity. Qed.

Lemma mergeAcc_assoc (a b c : Acc) :
  mergeAcc a (mergeAcc b c) = mergeAcc (mergeAcc a b) c.
Proof.
  unfold mergeAcc. simpl. rewrite Z.add_assoc, !app_assoc. reflexivity.
Qed.

(** An iteration adds to the local variables what it would add to fresh
    ones: the provider is asked the same, whatever was gathered before. *)
Lemma embedSection_merge (acc : Acc) (s : string) (t : Trace) :
  step acc s t
  = (mergeAcc acc (fst (step accInit s t)), snd (step accInit s t)).
Proof.
  unfold embedSection.
  destruct (Z.of_nat (String.length (replaceLF s)) <? MIN_CONTENT_LENGTH)%Z.
  - unfold ret. simpl. rewrite mergeAcc_init_r. reflexivity.
  - unfold bind.
    destruct (backOff _ 10000 10 t) as [[res | e] t']; unfold ret; simpl.
    + unfold recordEmbedding.
      destruct (data res); [|destruct (usage res)]; simpl;
        unfold pushError, mergeAcc; simpl; rewrite ?app_nil_r; reflexivity.
    + unfold pushError, mergeAcc. simpl. rewrite Z.add_0_r, app_nil_r. reflexivity.
Qed.

Lemma embedLoop_merge (ss : list string) :
  forall (acc : Acc) (t : Trace),
    loop ss acc t
    = (mergeAcc acc (fst (loop ss accInit t)), snd (loop ss accInit t)).
Proof.
  induction ss as [|s ss IH]; intros acc t.
  - rewrite !embedLoop_nil. simpl. rewrite mergeAcc_init_r. reflexivity.
  - rewrite !embedLoop_cons.
    rewrite (embedSection_merge acc s t). simpl fst. simpl snd.
    rewrite IH. rewrite (IH (fst (step accInit s t))).
    simpl. rewrite mergeAcc_assoc. reflexivity.
Qed.

(** An iteration whose first attempt returns a well-formed response adds
    its row and its tokens, and no error. *)
Lemma embedSection_success (acc : Acc) (section : string) (t : Trace)
    (res : EmbeddingResult) (e : Embedding) (es : list Embedding) (u : Usage) :
  (MIN_CONTENT_LENGTH <= Z.of_nat (String.length (replaceLF section)))%Z ->
  createEmbedding env t (replaceLF section) byoOpenAIKey = Ok res ->
  data res = e :: es ->
  usage res = Some u ->
  step acc section t
  = ({| embeddingsTokenCount := (embeddingsTokenCount acc + usageTokens res)%Z;
        errors := errors acc;
        embeddingsData :=
          (embeddingsData acc
             ++ [ {| file_id := fileId; row_content := replaceLF section;
                     embedding := e;
                     token_count :=
                       match total_tokens u with Some n => n | None => 0%Z end |} ])%list |},
     (t ++ [EvCreateEmbedding (replaceLF section) byoOpenAIKey])%list).
Proof.
  intros Hmin Hok Hdata Husage. unfold embedSection.
  apply Z.ltb_ge in Hmin. rewrite Hmin.
  unfold bind, backOff.
  rewrite (backOffFrom_success (replaceLF section) byoOpenAIKey 0 10 0 t
             (fun _ => EmptyString) res); [| lia | intros j Hj; lia |].
  - unfold recordEmbedding. rewrite Hdata, Husage. reflexivity.
  - simpl. rewrite app_nil_r. exact Hok.
Qed.

(** A chunk shorter than the minimum is skipped: no call, no error. *)
Lemma embedSection_skip (acc : Acc) (section : string) (t : Trace) :
  (Z.of_nat (String.length (replaceLF section)) < MIN_CONTENT_LENGTH)%Z ->
  step acc section t = (acc, t).
Proof.
  intros Hmin. unfold embedSection. apply Z.ltb_lt in Hmin. rewrite Hmin.
  reflexivity.
Qed.

(** An iteration whose ten attempts all throw. *)
Lemma embedSection_all_fail (acc : Acc) (section : string) (t : Trace)
    (errs : nat -> string) :
  (MIN_CONTENT_LENGTH <= Z.of_nat (String.length (replaceLF section)))%Z ->
  (forall j, (j < 10)%nat ->
     createEmbedding env
       (t ++ failedAttempts (replaceLF section) byoOpenAIKey 0 j ++ delayBefore j)%list
       (replaceLF section) byoOpenAIKey
     = Throw (errs j)) ->
  step acc section t
  = (pushError acc filePath (embeddingErrorMessage (replaceLF section) (errs 9%nat)),
     (t ++ failedAttempts (replaceLF section) byoOpenAIKey 0 10)%list).
Proof.
  intros Hmin Hfail. unfold embedSection.
  apply Z.ltb_ge in Hmin. rewrite Hmin.
  unfold bind, backOff.
    rewrite (backOffFrom_all_fail _ _ 9 0 t errs Hfail). reflexivity.
Qed.

Lemma embedSection_trace (acc : Acc) (s : string) (t : Trace) :
  exists evs,
    snd (step acc s t) = (t ++ evs)%list /\ Forall isProviderEvent evs.
Proof.
  unfold embedSection.
  destruct (Z.of_nat (String.length (replaceLF s)) <? MIN_CONTENT_LENGTH)%Z.
  - exists []. simpl. rewrite app_nil_r. split; [reflexivity | constructor].
  - unfold bind, backOff.
    destruct (backOffFrom_trace (replaceLF s) byoOpenAIKey 10 0 t) as [evs [Hevs Hall]].
    exists evs. split; [|exact Hall].
    destruct (backOffFrom _ 10000 10 0 t) as [[res | e] t']; simpl in *.
    + destruct (recordEmbedding env fileId (replaceLF s) acc res); exact Hevs.
    + exact Hevs.
Qed.

(** The loop only calls the provider and waits. *)
Lemma embedLoop_trace (ss : list string) :
  forall (acc : Acc) (t : Trace),
  exists evs,
    snd (loop ss acc t) = (t ++ evs)%list /\ Forall isProviderEvent evs.
Proof.
  induction ss as [|s ss IH]; intros acc t.
  - exists []. rewrite embedLoop_nil. simpl. rewrite app_nil_r.
    split; [reflexivity | constructor].
  - rewrite embedLoop_cons.
    destruct (embedSection_trace acc s t) as [e1 [H1 A1]].
    destruct (IH (fst (step acc s t)) (snd (step acc s t)))
      as [e2 [H2 A2]].
    exists (e1 ++ e2)%list. rewrite H2, H1, <- app_assoc.
    split; [reflexivity | apply Forall_app; split; assumption].
Qed.

End Run.

Section Claims.

Context {Meta Embedding ProjectId FileId : Type}.
Variable truthyId : FileId -> bool.
Variable lib : @Lib Meta.
Variable CONTEXT_TOKENS_CUTOFF : Z.
Variable MIN_CONTENT_LENGTH : Z.
Variable env : @Env Meta Embedding ProjectId FileId.

(** [C5] When the ten attempts for a chunk all throw (the first retry
    after 10 seconds), the iteration adds one error entry for the file's
    path, whose message holds the first twenty characters of the chunk,
    and no row; the loop goes on with the chunks that follow, and what
    they add is what they add when run on their own from there: the rows
    gathered before are kept and theirs come after. *)
Theorem embedLoop_chunk_failure
    (filePath : string) (fileId : FileId) (key : option string)
    (pre post : list string) (c : string)
    (acc0 acc1 : @Acc Embedding FileId)
    (t0 t1 : @Trace Meta Embedding ProjectId FileId) (errs : nat -> string) :
  embedLoop MIN_CONTENT_LENGTH env filePath fileId key pre acc0 t0 = (acc1, t1) ->
  (MIN_CONTENT_LENGTH <= Z.of_nat (String.length (replaceLF c)))%Z ->
  (forall j, (j < 10)%nat ->
     createEmbedding env
       (t1 ++ failedAttempts (replaceLF c) key 0 j ++ delayBefore j)%list
       (replaceLF c) key
     = Throw (errs j)) ->
  let entry :=
    {| err_path := filePath;
       message := embeddingErrorMessage (replaceLF c) (errs 9%nat) |} in
  let t2 := (t1 ++ failedAttempts (replaceLF c) key 0 10)%list in
  let rest := embedLoop MIN_CONTENT_LENGTH env filePath fileId key post accInit t2 in
  embedSection MIN_CONTENT_LENGTH env filePath fileId key acc1 c t1
  = ({| embeddingsTokenCount := embeddingsTokenCount acc1;
        errors := (errors acc1 ++ [entry])%list;
        embeddingsData := embeddingsData acc1 |}, t2)
  /\ embedLoop MIN_CONTENT_LENGTH env filePath fileId key (pre ++ c :: post) acc0 t0
     = ({| embeddingsTokenCount :=
             (embeddingsTokenCount acc1 + embeddingsTokenCount (fst rest))%Z;
           errors := (errors acc1 ++ entry :: errors (fst rest))%list;
           embeddingsData := (embeddingsData acc1 ++ embeddingsData (fst rest))%list |},
        snd rest)
  /\ message entry
     = "Unable to generate embeddings for section starting with '"
         ++ substring 0 20 (replaceLF c) ++ "...': " ++ errs 9%nat.
Proof.
  intros Hpre Hmin Hfail entry t2 rest.
  pose proof (embedSection_all_fail MIN_CONTENT_LENGTH env filePath fileId key
                acc1 c t1 errs Hmin Hfail) as Hsec.
  split; [exact Hsec|]. split; [|reflexivity].
  rewrite embedLoop_app, Hpre. simpl fst. simpl snd.
  rewrite embedLoop_cons, Hsec. simpl fst. simpl snd.
  rewrite embedLoop_merge. fold t2. fold rest.
  unfold mergeAcc, pushError. simpl. rewrite <- app_assoc. reflexivity.
Qed.

Lemma resolveFile_none (projectId : ProjectId) (filePath : string) (meta : Meta)
    (t0 : @Trace Meta Embedding ProjectId FileId) :
  truthyFile truthyId (getFileAtPath env t0 projectId filePath) = None ->
  truthyFile truthyId
    (createFile env (t0 ++ [EvGetFileAtPath projectId filePath])%list
       projectId filePath meta) = None ->
  resolveFile truthyId env projectId filePath meta t0
  = (None, (t0 ++ [EvGetFileAtPath projectId filePath;
                   EvCreateFile projectId filePath meta])%list).
Proof.
  intros Hget Hcreate. unfold resolveFile, bind, call.
  rewrite Hget. unfold ret. rewrite Hcreate, <- app_assoc. reflexivity.
Qed.

(** [C6] When the file is neither found nor created, the run returns one
    error, for the file's path, and has only asked the store for the file
    and tried to create it: the provider is not called, nothing is
    inserted and the usage counter is not touched. *)
Theorem generateFileEmbeddings_no_file
    (projectId : ProjectId) (file : FileData) (key : option string)
    (fsd : @FileSectionData Meta)
    (t0 : @Trace Meta Embedding ProjectId FileId) :
  processFile lib CONTEXT_TOKENS_CUTOFF file = Ok fsd ->
  truthyFile truthyId (getFileAtPath env t0 projectId (path file)) = None ->
  truthyFile truthyId
    (createFile env (t0 ++ [EvGetFileAtPath projectId (path file)])%list
       projectId (path file) (meta fsd)) = None ->
  generateFileEmbeddings truthyId lib CONTEXT_TOKENS_CUTOFF MIN_CONTENT_LENGTH
    env projectId file key t0
  = (Ok [ {| err_path := path file;
             message := "Unable to create file " ++ path file ++ "." |} ],
     (t0 ++ [EvGetFileAtPath projectId (path file);
             EvCreateFile projectId (path file) (meta fsd)])%list).
Proof.
  intros Hfile Hget Hcreate. unfold generateFileEmbeddings.
  rewrite Hfile. unfold bind.
  rewrite (resolveFile_none _ _ _ _ Hget Hcreate). reflexivity.
Qed.

Lemma forEach_emit {A : Type}
    (f : A -> @Event Meta Embedding ProjectId FileId) (l : list A)
    (t : @Trace Meta Embedding ProjectId FileId) :
  forEach (fun a => emit (f a)) l t = (tt, (t ++ map f l)%list).
Proof.
  revert t. induction l as [|a l IH]; intros t; simpl.
  - unfold ret. rewrite app_nil_r. reflexivity.
  - unfold bind, emit at 1. rewrite IH, <- app_assoc. reflexivity.
Qed.

Lemma storeEmbeddings_eq (filePath : string) (acc : @Acc Embedding FileId)
    (t : @Trace Meta Embedding ProjectId FileId) :
  storeEmbeddings env filePath acc t
  = match insertError env t (embeddingsData acc) with
    | Some msg =>
        ((errors acc ++ [ {| err_path := filePath;
                             message := "Error storing embeddings: " ++ msg |} ])%list,
         (t ++ EvInsertFileSections (embeddingsData acc)
            :: map (fun row => EvInsertFileSections [row]) (embeddingsData acc))%list)
    | None => (errors acc, (t ++ [EvInsertFileSections (embeddingsData acc)])%list)
    end.
Proof.
  unfold storeEmbeddings, bind, call.
  destruct (insertError env t (embeddingsData acc)) as [msg|].
  - rewrite forEach_emit. unfold ret. simpl. rewrite <- app_assoc. reflexivity.
  - reflexivity.
Qed.

(** [C7] Once the loop is over the rows gathered are inserted in one
    call.  When that insert reports an error, one entry that carries its
    message is added to the errors and every row is inserted again, alone
    and in order, nothing being deleted; when it reports none, no other
    insert is made.  The usage counter is incremented last in both cases. *)
Theorem generateFileEmbeddings_bulk_insert
    (projectId : ProjectId) (file : FileData) (key : option string)
    (fsd : @FileSectionData Meta) (fileId : FileId)
    (acc : @Acc Embedding FileId)
    (t0 t1 t2 : @Trace Meta Embedding ProjectId FileId) :
  processFile lib CONTEXT_TOKENS_CUTOFF file = Ok fsd ->
  resolveFile truthyId env projectId (path file) (meta fsd) t0 = (Some fileId, t1) ->
  embedLoop MIN_CONTENT_LENGTH env (path file) fileId key (sections fsd) accInit t1
    = (acc, t2) ->
  generateFileEmbeddings truthyId lib CONTEXT_TOKENS_CUTOFF MIN_CONTENT_LENGTH
    env projectId file key t0
  = match insertError env t2 (embeddingsData acc) with
    | Some msg =>
        (Ok (errors acc ++ [ {| err_path := path file;
                                message := "Error storing embeddings: " ++ msg |} ])%list,
         (t2 ++ EvInsertFileSections (embeddingsData acc)
             :: map (fun row => EvInsertFileSections [row]) (embeddingsData acc)
             ++ [EvIncrBy projectId (embeddingsTokenCount acc)])%list)
    | None =>
        (Ok (errors acc),
         (t2 ++ [EvInsertFileSections (embeddingsData acc);
                 EvIncrBy projectId (embeddingsTokenCount acc)])%list)
    end.
Proof.
  intros Hfile Hresolve Hloop. unfold generateFileEmbeddings.
  rewrite Hfile. unfold bind at 1. rewrite Hresolve.
  unfold bind at 1. rewrite Hloop.
  unfold bind at 1. rewrite storeEmbeddings_eq.
  destruct (insertError env t2 (embeddingsData acc)) as [msg|];
    unfold bind, emit, ret; simpl; rewrite <- app_assoc; reflexivity.
Qed.

End Claims.

Section Stages.

Context {Meta Embedding ProjectId FileId : Type}.
Variable truthyId : FileId -> bool.
Variable lib : @Lib Meta.
Variable CONTEXT_TOKENS_CUTOFF : Z.
Variable MIN_CONTENT_LENGTH : Z.
Variable env : @Env Meta Embedding ProjectId FileId.

(** Resolving the file asks for it, then empties and updates it, or
    creates it. *)
Lemma resolveFile_trace (projectId : ProjectId) (filePath : string) (meta : Meta)
    (t : @Trace Meta Embedding ProjectId FileId) :
  exists evs,
    snd (resolveFile truthyId env projectId filePath meta t) = (t ++ evs)%list
    /\ Forall isResolveEvent evs.
Proof.
  unfold resolveFile, bind, call, emit, ret.
  destruct (truthyFile truthyId (getFileAtPath env t projectId filePath)) as [id|].
  - exists [EvGetFileAtPath projectId filePath; EvDeleteFileSections id;
            EvUpdateFileMeta id meta].
    simpl. rewrite <- !app_assoc. split; [reflexivity | repeat constructor].
  - exists [EvGetFileAtPath projectId filePath; EvCreateFile projectId filePath meta].
    simpl. rewrite <- !app_assoc. split; [reflexivity | repeat constructor].
Qed.

Lemma storeEmbeddings_trace (filePath : string) (acc : @Acc Embedding FileId)
    (t : @Trace Meta Embedding ProjectId FileId) :
  exists evs,
    snd (storeEmbeddings env filePath acc t) = (t ++ evs)%list
    /\ Forall isPersistEvent evs.
Proof.
  rewrite storeEmbeddings_eq.
  destruct (insertError env t (embeddingsData acc)) as [msg|]; simpl.
  - eexists. split; [reflexivity|].
    constructor; [exact I|]. apply Forall_map, Forall_forall. intros; exact I.
  - eexists. split; [reflexivity | repeat constructor].
Qed.

(** [C9] (as amended) The calls of a run come in three stretches: first
    the calls that resolve the file, which delete its former sections and
    update its metadata, or create it; then the calls of the embedding
    loop, all to the provider or waits between attempts, none to a store;
    last the inserts of the rows and the increment of the usage counter. *)
Theorem generateFileEmbeddings_stages
    (projectId : ProjectId) (file : FileData) (key : option string)
    (t0 : @Trace Meta Embedding ProjectId FileId) :
  exists pre mid post,
    snd (generateFileEmbeddings truthyId lib CONTEXT_TOKENS_CUTOFF
           MIN_CONTENT_LENGTH env projectId file key t0)
    = (t0 ++ pre ++ mid ++ post)%list
    /\ Forall isResolveEvent pre
    /\ Forall isProviderEvent mid
    /\ Forall isPersistEvent post
    /\ (forall fsd fileId,
          processFile lib CONTEXT_TOKENS_CUTOFF file = Ok fsd ->
          fst (resolveFile truthyId env projectId (path file) (meta fsd) t0)
            = Some fileId ->
          snd (resolveFile truthyId env projectId (path file) (meta fsd) t0)
            = (t0 ++ pre)%list
          /\ snd (embedLoop MIN_CONTENT_LENGTH env (path file) fileId key
                    (sections fsd) accInit (t0 ++ pre)%list)
             = (t0 ++ pre ++ mid)%list).
Proof.
  unfold generateFileEmbeddings.
  destruct (processFile lib CONTEXT_TOKENS_CUTOFF file) as [fsd | e].
  - destruct (resolveFile_trace projectId (path file) (meta fsd) t0)
      as [pre [Hpre Apre]].
    unfold bind at 1.
    destruct (resolveFile truthyId env projectId (path file) (meta fsd) t0)
      as [[id|] t1] eqn:Hres; simpl in Hpre; subst t1.
    + destruct (embedLoop_trace MIN_CONTENT_LENGTH env (path file) id key
                  (sections fsd) accInit (t0 ++ pre)%list) as [mid [Hmid Amid]].
      unfold bind at 1.
      destruct (embedLoop MIN_CONTENT_LENGTH env (path file) id key
                  (sections fsd) accInit (t0 ++ pre)%list) as [acc t2] eqn:Hloop.
      simpl in Hmid. subst t2.
      destruct (storeEmbeddings_trace (path file) acc ((t0 ++ pre) ++ mid)%list)
        as [ins [Hins Ains]].
      unfold bind at 1.
      destruct (storeEmbeddings env (path file) acc ((t0 ++ pre) ++ mid)%list)
        as [errs t3]. simpl in Hins. subst t3.
      exists pre, mid, (ins ++ [EvIncrBy projectId (embeddingsTokenCount acc)])%list.
      unfold bind, emit, ret. simpl.
      split; [rewrite <- !app_assoc; reflexivity|].
      split; [exact Apre|]. split; [exact Amid|].
      split; [apply Forall_app; split; [exact Ains | repeat constructor]|].
      intros fsd' id' Hf Hr. inversion Hf; subst fsd'.
      rewrite Hres in Hr |- *. simpl in Hr. inversion Hr; subst id'.
      rewrite Hloop. simpl. rewrite <- app_assoc. split; reflexivity.
    + exists pre, [], []. unfold ret. simpl. rewrite !app_nil_r.
      split; [reflexivity|]. split; [exact Apre|].
      split; [constructor|]. split; [constructor|].
      intros fsd' id' Hf Hr. inversion Hf; subst fsd'.
      rewrite Hres in Hr. discriminate.
  - exists [], [], []. unfold ret. simpl. rewrite app_nil_r.
    repeat split; try constructor; discriminate.
Qed.

End Stages.

(** ** Runs in the small world *)

Lemma embedLoop_chunk_failure_witness :
  let r := embedLoop 5 Sample.env "docs/known.md" 7%Z None
             ["# One" ++ LFs ++ "first text";
              "bad" ++ LFs ++ "chunk here";
              "# Three" ++ LFs ++ "third text"] accInit [] in
  errors (fst r)
  = [ {| err_path := "docs/known.md";
         message := "Unable to generate embeddings for section starting with "
                      ++ "'bad chunk here...': Error: 429" |} ]
  /\ map row_content (embeddingsData (fst r))
     = ["# One first text"; "# Three third text"].
Proof.
  intros r.
  pose (pre := embedLoop 5 Sample.env "docs/known.md" 7%Z None
                 ["# One" ++ LFs ++ "first text"] accInit []).
  destruct (embedLoop_chunk_failure 5 Sample.env "docs/known.md" 7%Z None
              ["# One" ++ LFs ++ "first text"] ["# Three" ++ LFs ++ "third text"]
              ("bad" ++ LFs ++ "chunk here")
              accInit (fst pre) [] (snd pre) (fun _ => "Error: 429"))
    as [_ [Hloop _]].
  - reflexivity.
  - simpl. lia.
  - intros j _. reflexivity.
  - pose proof (Hloop : r = _) as Hr. clearbody r. rewrite Hr.
    split; reflexivity.
Defined.

Lemma generateFileEmbeddings_no_file_witness :
  Sample.run Docs.denied
  = (Ok [ {| err_path := "docs/denied.md";
             message := "Unable to create file docs/denied.md." |} ],
     [EvGetFileAtPath "project" "docs/denied.md";
      EvCreateFile "project" "docs/denied.md" "meta"]).
Proof.
  refine (generateFileEmbeddings_no_file Sample.truthyId Sample.lib 100 5 Sample.env
            "project" Docs.denied None
            {| sections := ["# Title" ++ LFs ++ "hello world"]; meta := "meta" |}
            [] _ _ _); reflexivity.
Defined.

Lemma generateFileEmbeddings_bulk_insert_witness :
  let row := fun (text : string) (n : Z) =>
    {| file_id := 8%Z; row_content := text; embedding := [1; 2]%Z; token_count := n |} in
  Sample.run Docs.three
  = (Ok [ {| err_path := "docs/three.md";
             message := "Error storing embeddings: payload too large" |} ],
     [EvGetFileAtPath "project" "docs/three.md";
      EvCreateFile "project" "docs/three.md" "meta";
      EvCreateEmbedding "# One first text" None;
      EvCreateEmbedding "# Two second text" None;
      EvCreateEmbedding "# Three third text" None;
      EvInsertFileSections
        [row "# One first text" 16%Z; row "# Two second text" 17%Z;
         row "# Three third text" 18%Z];
      EvInsertFileSections [row "# One first text" 16%Z];
      EvInsertFileSections [row "# Two second text" 17%Z];
      EvInsertFileSections [row "# Three third text" 18%Z];
      EvIncrBy "project" 51%Z]).
Proof.
  intros row.
  pose (fsd := {| sections := ["# One" ++ LFs ++ "first text";
                               "# Two" ++ LFs ++ "second text";
                               "# Three" ++ LFs ++ "third text"];
                  meta := "meta" |}).
  pose (t1 := [EvGetFileAtPath "project" "docs/three.md";
               EvCreateFile "project" "docs/three.md" "meta"]
              : @Trace string (list Z) string Z).
  pose (loop := embedLoop 5 Sample.env "docs/three.md" 8%Z None (sections fsd) accInit t1).
  etransitivity.
  - exact (generateFileEmbeddings_bulk_insert Sample.truthyId Sample.lib 100 5
             Sample.env "project" Docs.three None fsd 8%Z (fst loop) [] t1 (snd loop)
             eq_refl eq_refl eq_refl).
  - reflexivity.
Defined.

(** A file the store knows, with one section: its former sections are
    deleted and its metadata updated before the provider is called, not
    after the loop. *)
Lemma generateFileEmbeddings_delete_precedes_embedding :
  snd (Sample.run Docs.known)
  = [EvGetFileAtPath "project" "docs/known.md";
     EvDeleteFileSections 7%Z;
     EvUpdateFileMeta 7%Z "meta";
     EvCreateEmbedding "# Title hello world" None;
     EvInsertFileSections
       [ {| file_id := 7%Z; row_content := "# Title hello world";
            embedding := [1; 2]%Z; token_count := 19 |} ];
     EvIncrBy "project" 19%Z]
  /\ exists before after,
       snd (Sample.run Docs.known)
       = (before ++ EvCreateEmbedding "# Title hello world" None :: after)%list
       /\ In (EvDeleteFileSections 7%Z) before
       /\ In (EvUpdateFileMeta 7%Z "meta") before.
Proof.
  split; [reflexivity|].
  exists [EvGetFileAtPath "project" "docs/known.md";
          EvDeleteFileSections 7%Z; EvUpdateFileMeta 7%Z "meta"].
  eexists. split; [reflexivity|]. simpl. auto.
Qed.

Lemma generateFileEmbeddings_stages_witness :
  exists pre mid : @Trace string (list Z) string Z,
    snd (resolveFile Sample.truthyId Sample.env "project" "docs/known.md" "meta" [])
      = ([] ++ pre)%list
    /\ snd (embedLoop 5 Sample.env "docs/known.md" 7%Z None
              ["# Title" ++ LFs ++ "hello world"] accInit ([] ++ pre)%list)
       = ([] ++ pre ++ mid)%list
    /\ Forall isResolveEvent pre
    /\ Forall isProviderEvent mid.
Proof.
  destruct (generateFileEmbeddings_stages Sample.truthyId Sample.lib 100 5 Sample.env
              "project" Docs.known None [])
    as (pre & mid & post & _ & Hpre & Hmid & _ & Hloop).
  destruct (Hloop {| sections := ["# Title" ++ LFs ++ "hello world"]; meta := "meta" |}
              7%Z eq_refl eq_refl) as [H1 H2].
  exists pre, mid. repeat split; assumption.
Defined.

(** One chunk out of three fails for good: two rows, one error. *)
Example one_chunk_of_three_fails :
  let r := embedLoop 5 Sample.env "docs/known.md" 7%Z None
             ["# One" ++ LFs ++ "first text";
              "bad" ++ LFs ++ "chunk here";
              "# Three" ++ LFs ++ "third text"] accInit [] in
  List.length (embeddingsData (fst r)) = 2%nat
  /\ List.length (errors (fst r)) = 1%nat
  /\ embeddingsTokenCount (fst r) = 34%Z.
Proof. repeat split. Qed.

(** The calls of ten attempts that fail: the first retry waits 10 seconds,
    every next one twice as long. *)
Example failedAttempts_ten (input : string) (key : option string) :
  @failedAttempts unit unit unit unit input key 0 10
  = [EvCreateEmbedding input key; EvDelay 10000;
     EvCreateEmbedding input key; EvDelay 20000;
     EvCreateEmbedding input key; EvDelay 40000;
     EvCreateEmbedding input key; EvDelay 80000;
     EvCreateEmbedding input key; EvDelay 160000;
     EvCreateEmbedding input key; EvDelay 320000;
     EvCreateEmbedding input key; EvDelay 640000;
     EvCreateEmbedding input key; EvDelay 1280000;
     EvCreateEmbedding input key; EvDelay 2560000;
     EvCreateEmbedding input key].
Proof. reflexivity. Qed.

(** * Further properties *)

(** ** The budget sub-splitter, continued *)

Lemma splitLoop_length (B : Q) (lines : list string) (st : SplitState) :
  (List.length (subSections (splitLoop B lines st))
   <= List.length (subSections st) + List.length lines)%nat.
Proof.
  revert st. induction lines as [|l ls IH]; intros st.
  - simpl. lia.
  - rewrite splitLoop_cons. specialize (IH (splitStep B st l)).
    destruct (splitStep_cases B st l) as [[_ Heq] | [_ Heq]];
      rewrite Heq in *; simpl in IH; [|rewrite length_app in IH]; simpl in *; lia.
Qed.

(** Once a line has been read, a piece was flushed or the buffer holds
    something. *)
Lemma splitLoop_some_output (B : Q) (lines : list string) (st : SplitState) :
  lines <> [] \/ subSections st <> [] \/ truthy_string (accLines st) = true ->
  subSections (splitLoop B lines st) <> []
  \/ truthy_string (accLines (splitLoop B lines st)) = true.
Proof.
  revert st. induction lines as [|l ls IH]; intros st H.
  - destruct H as [H | H]; [contradiction | exact H].
  - rewrite splitLoop_cons. apply IH. right.
    destruct (splitStep_cases B st l) as [[_ ->] | [_ ->]]; simpl.
    + right. destruct (accLines st); reflexivity.
    + left. intros E. apply app_eq_nil in E as [_ E]. discriminate.
Qed.

(** [X1] Whatever the cut-off, the sub-splitter returns at least one piece,
    and at most one more than the section has lines. *)
Theorem splitWithinTokenCutoff_count (C : Z) (s : string) :
  splitWithinTokenCutoff C s <> []
  /\ (List.length (splitWithinTokenCutoff C s) <= List.length (split_lines s) + 1)%nat.
Proof.
  unfold splitWithinTokenCutoff.
  destruct (Qltb (jslength s / 4) (TOKEN_CUTOFF_ADJUSTED C)).
  - split; [discriminate|]. simpl. lia.
  - pose proof (splitLoop_length (TOKEN_CUTOFF_ADJUSTED C) (split_lines s) splitInit) as Hlen.
    pose proof (splitLoop_some_output (TOKEN_CUTOFF_ADJUSTED C) (split_lines s) splitInit
                  (or_introl (split_lines_nonempty s))) as Hout.
    simpl in Hlen. unfold splitFinish.
    destruct (truthy_string (accLines _)) eqn:E.
    + split; [intros H; apply app_eq_nil in H as [_ H]; discriminate|].
      rewrite length_app. simpl. lia.
    + split; [|lia]. destruct Hout as [H | H]; [exact H | discriminate].
Qed.

(** Splitting at line feeds and joining with line feeds gives the string
    back. *)
Lemma concat_split_lines (s : string) : String.concat LFs (split_lines s) = s.
Proof.
  induction s as [|c r IH]; [reflexivity|]. simpl split_lines.
  pose proof (split_lines_nonempty r) as Hne.
  destruct (Ascii.eqb_spec c LF) as [-> | Hc].
  - destruct (split_lines r) as [|h t]; [contradiction|].
    change (String.concat LFs ("" :: h :: t)) with (LFs ++ String.concat LFs (h :: t)).
    rewrite IH. reflexivity.
  - destruct (split_lines r) as [|h t]; [contradiction|].
    destruct t as [|h' t].
    + simpl in *. rewrite IH. reflexivity.
    + change (String.concat LFs (String c h :: h' :: t))
        with (String c (h ++ LFs ++ String.concat LFs (h' :: t))).
      change (String.concat LFs (h :: h' :: t))
        with (h ++ LFs ++ String.concat LFs (h' :: t)) in IH.
      rewrite IH. reflexivity.
Qed.

Lemma string_app_assoc (a b c : string) : (a ++ b) ++ c = a ++ b ++ c.
Proof. induction a as [|x a IH]; simpl; [reflexivity | rewrite IH; reflexivity]. Qed.

Lemma string_app_empty_r (a : string) : a ++ "" = a.
Proof. induction a as [|x a IH]; simpl; [reflexivity | rewrite IH; reflexivity]. Qed.

Lemma concat_snoc (l : list string) (x : string) :
  l <> [] -> String.concat LFs (l ++ [x]) = String.concat LFs l ++ LFs ++ x.
Proof.
  induction l as [|a l IH]; [contradiction|]. intros _.
  destruct l as [|b l].
  - reflexivity.
  - change (String.concat LFs ((a :: b :: l) ++ [x]))
      with (a ++ LFs ++ String.concat LFs ((b :: l) ++ [x])).
    rewrite IH by discriminate.
    change (String.concat LFs (a :: b :: l)) with (a ++ LFs ++ String.concat LFs (b :: l)).
    rewrite !string_app_assoc. reflexivity.
Qed.

Lemma concat_snoc_app (l : list string) (a b : string) :
  String.concat LFs (l ++ [a ++ b]) = String.concat LFs (l ++ [a]) ++ b.
Proof.
  induction l as [|x l IH]; [reflexivity|].
  destruct l as [|y l].
  - simpl. rewrite !string_app_assoc. reflexivity.
  - change (String.concat LFs ((x :: y :: l) ++ [a ++ b]))
      with (x ++ LFs ++ String.concat LFs ((y :: l) ++ [a ++ b])).
    rewrite IH.
    change (String.concat LFs ((x :: y :: l) ++ [a]))
      with (x ++ LFs ++ String.concat LFs ((y :: l) ++ [a])).
    rewrite !string_app_assoc. reflexivity.
Qed.

(** An iteration adds a line feed and the line to the pieces joined. *)
Lemma splitStep_joined (B : Q) (st : SplitState) (line : string) :
  String.concat LFs
    (subSections (splitStep B st line) ++ [accLines (splitStep B st line)])
  = String.concat LFs (subSections st ++ [accLines st]) ++ LFs ++ line.
Proof.
  destruct (splitStep_cases B st line) as [[_ ->] | [_ ->]]; simpl.
  - change (String LF line) with (LFs ++ line). apply concat_snoc_app.
  - apply concat_snoc. intros E. apply app_eq_nil in E as [_ E]. discriminate.
Qed.

Lemma splitLoop_joined (B : Q) (lines : list string) (st : SplitState) :
  String.concat LFs
    (subSections (splitLoop B lines st) ++ [accLines (splitLoop B lines st)])
  = String.concat LFs (subSections st ++ [accLines st]) ++ lfJoin lines.
Proof.
  revert st. induction lines as [|l ls IH]; intros st.
  - simpl. rewrite string_app_empty_r. reflexivity.
  - rewrite splitLoop_cons, IH, splitStep_joined.
    simpl lfJoin. rewrite !string_app_assoc. reflexivity.
Qed.

Lemma lfJoin_concat (lines : list string) :
  lines <> [] -> lfJoin lines = LFs ++ String.concat LFs lines.
Proof.
  induction lines as [|l ls IH]; [contradiction|]. intros _.
  destruct ls as [|l' ls].
  - simpl. rewrite string_app_empty_r. reflexivity.
  - change (lfJoin (l :: l' :: ls)) with (LFs ++ l ++ lfJoin (l' :: ls)).
    rewrite IH by discriminate. reflexivity.
Qed.

(** [X2] For a positive cut-off, the pieces joined with line feeds are the
    section itself when it is under the budget, and the section after one
    line feed when it is split: no character is lost or moved. *)
Theorem splitWithinTokenCutoff_joined (C : Z) (s : string) :
  (0 < C)%Z ->
  String.concat LFs (splitWithinTokenCutoff C s)
  = if Qltb (estimatedTokens s) (TOKEN_CUTOFF_ADJUSTED C) then s else LFs ++ s.
Proof.
  intros HC.
  destruct (Qltb (estimatedTokens s) (TOKEN_CUTOFF_ADJUSTED C)) eqn:E.
  - apply Qltb_lt in E. rewrite (splitWithinTokenCutoff_short C s E). reflexivity.
  - apply Qltb_ge in E.
    destruct (splitWithinTokenCutoff_split_path C s HC E) as [-> _].
    rewrite splitLoop_joined, lfJoin_concat by apply split_lines_nonempty.
    rewrite concat_split_lines. reflexivity.
Qed.

Lemma splitWithinTokenCutoff_joined_witness :
  String.concat LFs
    (splitWithinTokenCutoff 5
       ("aaaaaaaa" ++ LFs ++ "bbbbbbb" ++ LFs ++ "cccccccc" ++ LFs ++ "d"))
  = LFs ++ "aaaaaaaa" ++ LFs ++ "bbbbbbb" ++ LFs ++ "cccccccc" ++ LFs ++ "d".
Proof.
  exact (splitWithinTokenCutoff_joined 5
           ("aaaaaaaa" ++ LFs ++ "bbbbbbb" ++ LFs ++ "cccccccc" ++ LFs ++ "d")
           ltac:(lia)).
Defined.

Lemma emptyOrLF_app (acc line : string) :
  emptyOrLF acc -> emptyOrLF (acc ++ LFs ++ line).
Proof.
  intros [-> | [r ->]]; right; eexists; reflexivity.
Qed.

Lemma string_app_nonempty (a b : string) : a ++ LFs ++ b <> "".
Proof. destruct a; discriminate. Qed.

Lemma splitStep_shape (B : Q) (st : SplitState) (line : string) :
  accTokenCounter st < B ->
  piecesShape (subSections st) (accLines st) ->
  piecesShape (subSections (splitStep B st line)) (accLines (splitStep B st line)).
Proof.
  intros Hacc Hshape.
  destruct (splitStep_cases B st line) as [[_ ->] | [Hge ->]]; simpl.
  - change (String LF line) with (LFs ++ line).
    destruct Hshape as [[Hs He] | (f & rest & Hs & Hf & Hrest & Hne)].
    + left. split; [exact Hs | apply emptyOrLF_app; exact He].
    + right. exists f, rest. repeat split; trivial. apply string_app_nonempty.
  - assert (Hline : line <> "").
    { apply estimatedTokens_pos. lra. }
    right. destruct Hshape as [[Hs He] | (f & rest & Hs & Hf & Hrest & Hne)];
      rewrite Hs; simpl.
    + exists (accLines st), []. repeat split; trivial.
    + exists f, (rest ++ [accLines st])%list. repeat split; trivial.
      apply Forall_app. split; [exact Hrest | repeat constructor; exact Hne].
Qed.

Lemma splitLoop_shape (B : Q) (lines : list string) :
  0 < B -> Forall (fun l => noLF l = true) lines ->
  forall st, budgetInv B st ->
    piecesShape (subSections st) (accLines st) ->
    piecesShape (subSections (splitLoop B lines st)) (accLines (splitLoop B lines st)).
Proof.
  intros HB Hlines. induction Hlines as [|l ls Hl _ IH]; intros st Hinv Hshape.
  - exact Hshape.
  - rewrite splitLoop_cons. apply IH.
    + apply splitStep_budgetInv; assumption.
    + apply splitStep_shape; [apply Hinv | exact Hshape].
Qed.

(** [X3] For a positive cut-off, when a section is split its first piece is
    empty or starts with a line feed, and no later piece is empty. *)
Theorem splitWithinTokenCutoff_pieces_shape (C : Z) (s : string) :
  (0 < C)%Z ->
  TOKEN_CUTOFF_ADJUSTED C <= estimatedTokens s ->
  exists first rest,
    splitWithinTokenCutoff C s = first :: rest
    /\ emptyOrLF first
    /\ Forall (fun p => p <> "") rest.
Proof.
  intros HC Hge.
  pose proof (TOKEN_CUTOFF_ADJUSTED_pos C HC) as HB.
  destruct (splitWithinTokenCutoff_split_path C s HC Hge) as [-> _].
  assert (Hshape : piecesShape
            (subSections (splitLoop (TOKEN_CUTOFF_ADJUSTED C) (split_lines s) splitInit))
            (accLines (splitLoop (TOKEN_CUTOFF_ADJUSTED C) (split_lines s) splitInit))).
  { apply splitLoop_shape; auto using split_lines_noLF, budgetInv_init.
    left. split; [reflexivity | left; reflexivity]. }
  destruct Hshape as [[-> He] | (f & rest & -> & Hf & Hrest & Hne)].
  - eexists _, []. simpl. repeat split; [exact He | constructor].
  - exists f, (rest ++ [accLines
        (splitLoop (TOKEN_CUTOFF_ADJUSTED C) (split_lines s) splitInit)])%list.
    repeat split; trivial.
    apply Forall_app. split; [exact Hrest | repeat constructor; exact Hne].
Qed.

Lemma splitWithinTokenCutoff_pieces_shape_witness :
  exists first rest,
    splitWithinTokenCutoff 5
      ("aaaaaaaa" ++ LFs ++ "bbbbbbb" ++ LFs ++ "cccccccc" ++ LFs ++ "d")
    = first :: rest
    /\ emptyOrLF first
    /\ Forall (fun p => p <> "") rest.
Proof.
  apply splitWithinTokenCutoff_pieces_shape.
  - lia.
  - vm_compute. discriminate.
Defined.

(** The lines of the pieces on the splitting path. *)
Lemma piecesLines_split_path (C : Z) (s : string) :
  (0 < C)%Z ->
  TOKEN_CUTOFF_ADJUSTED C <= estimatedTokens s ->
  piecesLines (splitWithinTokenCutoff C s) = "" :: split_lines s.
Proof.
  intros HC Hge.
  destruct (splitWithinTokenCutoff_split_path C s HC Hge) as [-> _].
  rewrite piecesLines_snoc, splitLoop_lines by apply split_lines_noLF.
  reflexivity.
Qed.

Lemma in_piecesLines (pieces : list string) (piece line : string) :
  In piece pieces -> In line (split_lines piece) -> In line (piecesLines pieces).
Proof.
  intros Hp Hl. unfold piecesLines. apply in_concat.
  exists (split_lines piece). split; [apply in_map; exact Hp | exact Hl].
Qed.

(** [X4] For a positive cut-off, when every line of the section is under
    the budget, the lines of a piece total less than twice the budget: the
    line that opens a piece is not counted against what follows it. *)
Theorem splitWithinTokenCutoff_twice_budget (C : Z) (s piece : string) :
  (0 < C)%Z ->
  Forall (fun l => estimatedTokens l < TOKEN_CUTOFF_ADJUSTED C) (split_lines s) ->
  In piece (splitWithinTokenCutoff C s) ->
  linesTokens (split_lines piece) < 2 * TOKEN_CUTOFF_ADJUSTED C.
Proof.
  intros HC Hlines Hin.
  pose proof (TOKEN_CUTOFF_ADJUSTED_pos C HC) as HB.
  pose proof (splitWithinTokenCutoff_tail_budget C s piece HC Hin) as Htail.
  assert (Hhead : forall l, In l (split_lines piece) ->
                            estimatedTokens l < TOKEN_CUTOFF_ADJUSTED C).
  { intros l Hl.
    destruct (Qlt_le_dec (estimatedTokens s) (TOKEN_CUTOFF_ADJUSTED C)) as [Hlt | Hge].
    - rewrite (splitWithinTokenCutoff_short C s Hlt) in Hin.
      destruct Hin as [<- | []]. rewrite Forall_forall in Hlines. exact (Hlines l Hl).
    - pose proof (in_piecesLines _ _ _ Hin Hl) as Hl'.
      rewrite (piecesLines_split_path C s HC Hge) in Hl'.
      destruct Hl' as [<- | Hl'].
      + rewrite estimatedTokens_empty. exact HB.
      + rewrite Forall_forall in Hlines. exact (Hlines l Hl'). }
  pose proof (split_lines_nonempty piece) as Hne.
  destruct (split_lines piece) as [|h t]; [contradiction|].
  rewrite linesTokens_cons. simpl in Htail.
  pose proof (Hhead h (or_introl eq_refl)). lra.
Qed.

Lemma splitWithinTokenCutoff_twice_budget_witness :
  linesTokens (split_lines ("bbbbbbbbbbbb" ++ LFs ++ "cccccccccccc"))
  < 2 * TOKEN_CUTOFF_ADJUSTED 5.
Proof.
  apply (splitWithinTokenCutoff_twice_budget 5
           ("aaaaaaaaaaaa" ++ LFs ++ "bbbbbbbbbbbb" ++ LFs ++ "cccccccccccc")).
  - lia.
  - repeat constructor.
  - right. left. reflexivity.
Defined.

(** Line feeds are not counted: a section of seventeen line feeds, with a
    budget of four tokens, comes back as one piece of eighteen characters. *)
Example splitWithinTokenCutoff_line_feeds_only :
  splitWithinTokenCutoff 5 (lfJoin (repeat "" 17)) = [LFs ++ lfJoin (repeat "" 17)].
Proof. reflexivity. Qed.

(** [X5] Sections that are all under the budget go through the trimming
    unchanged: the chunks of the file are its sections. *)
Theorem trimSections_under_budget (C : Z) (sections : list string) :
  Forall (fun s => estimatedTokens s < TOKEN_CUTOFF_ADJUSTED C) sections ->
  trimSections C sections = sections.
Proof.
  intros H. rewrite trimSections_flat_map.
  induction H as [|s ss Hs _ IH]; [reflexivity|].
  simpl. rewrite (splitWithinTokenCutoff_short C s Hs), IH. reflexivity.
Qed.

Lemma trimSections_under_budget_witness :
  trimSections 100 ["# One" ++ LFs ++ "first text"; "# Two" ++ LFs ++ "second text"]
  = ["# One" ++ LFs ++ "first text"; "# Two" ++ LFs ++ "second text"].
Proof.
  apply trimSections_under_budget. repeat constructor.
Defined.

(** ** The section splitter, continued *)

Section SectionsFrom.

Variable predicate : Content -> bool.

(** The reduce, started with a section being filled, against the forward
    reading. *)
Lemma fold_splitTreeStep_sectionsFrom (nodes : list Content) :
  forall (trees : list Root) (current : Root),
    fold_left (splitTreeStep predicate) nodes (trees ++ [current])%list
    = (trees ++ sectionsFrom predicate current nodes)%list.
Proof.
  induction nodes as [|n ns IH]; intros trees current; simpl.
  - reflexivity.
  - rewrite splitTreeStep_snoc. destruct (predicate n).
    + change [current; u_root [n]] with ([current] ++ [u_root [n]])%list.
      rewrite app_assoc, IH, <- app_assoc. reflexivity.
    + apply IH.
Qed.

Lemma splitTreeBy_cons (n : Content) (ns : list Content) :
  splitTreeBy (u_root (n :: ns)) predicate = sectionsFrom predicate (u_root [n]) ns.
Proof.
  unfold splitTreeBy. simpl fold_left. rewrite splitTreeStep_nil.
  exact (fold_splitTreeStep_sectionsFrom ns [] (u_root [n])).
Qed.

(** [X6] The reduce of [splitTreeBy], with its in-place push on the last
    tree, computes the sections a forward reading of the children gives: none
    for no child, else the sections from the first child on. *)
Theorem splitTreeBy_sectionsFrom (tree : Root) :
  splitTreeBy tree predicate
  = match children tree with
    | [] => []
    | n :: ns => sectionsFrom predicate (u_root [n]) ns
    end.
Proof.
  destruct tree as [[|n ns]]; [reflexivity|]. apply splitTreeBy_cons.
Qed.

Lemma sectionsFrom_shape (nodes : list Content) :
  forall (current : Root) (h : Content),
    sectionHeadedBy predicate h current ->
    exists first rest,
      sectionsFrom predicate current nodes = first :: rest
      /\ sectionHeadedBy predicate h first
      /\ Forall (sectionAtBoundary predicate) rest.
Proof.
  induction nodes as [|n ns IH]; intros current h Hcur; simpl.
  - exists current, []. repeat split; [exact Hcur | constructor].
  - destruct (predicate n) eqn:E.
    + destruct (IH (u_root [n]) n) as (first & rest & Heq & Hfirst & Hrest).
      { exists []. split; reflexivity. }
      exists current, (first :: rest). rewrite Heq. repeat split; trivial.
      constructor; [exists n; split; assumption | exact Hrest].
    + apply IH. destruct Hcur as (t & Ht & Hall).
      exists (t ++ [n])%list. simpl. rewrite Ht. split; [reflexivity|].
      rewrite forallb_app, Hall. simpl. rewrite E. reflexivity.
Qed.

(** [X7] Every section starts where the splitter says: the first one with
    the first child of the tree, every other one with a node the predicate
    picks; and no section holds such a node after its first node.  No
    section is empty. *)
Theorem splitTreeBy_section_shape (n : Content) (ns : list Content) :
  exists first rest,
    splitTreeBy (u_root (n :: ns)) predicate = first :: rest
    /\ sectionHeadedBy predicate n first
    /\ Forall (sectionAtBoundary predicate) rest.
Proof.
  rewrite splitTreeBy_cons. apply sectionsFrom_shape.
  exists []. split; reflexivity.
Qed.

(** [X8] Splitting composes at a boundary: the sections of a sequence that
    has a node the predicate picks are the sections of what comes before
    it, followed by the sections from that node on. *)
Theorem splitTreeBy_at_boundary (before after : list Content) (h : Content) :
  predicate h = true ->
  splitTreeBy (u_root (before ++ h :: after)) predicate
  = (splitTreeBy (u_root before) predicate
       ++ splitTreeBy (u_root (h :: after)) predicate)%list.
Proof.
  intros Hh. rewrite (splitTreeBy_cons h after).
  unfold splitTreeBy. simpl children. rewrite fold_left_app. simpl fold_left.
  set (trees := fold_left (splitTreeStep predicate) before []).
  destruct trees as [|x xs] using rev_ind.
  - rewrite splitTreeStep_nil.
    exact (fold_splitTreeStep_sectionsFrom after [] (u_root [h])).
  - rewrite splitTreeStep_snoc, Hh.
    change [x; u_root [h]] with ([x] ++ [u_root [h]])%list.
    rewrite app_assoc. apply fold_splitTreeStep_sectionsFrom.
Qed.

End SectionsFrom.

Lemma splitTreeBy_at_boundary_witness :
  splitTreeBy
    (u_root ([Node "paragraph" [] "p"; Node "heading" [] "h1"]
               ++ Node "heading" [] "h2" :: [Node "paragraph" [] "q"])) isHeading
  = (splitTreeBy (u_root [Node "paragraph" [] "p"; Node "heading" [] "h1"]) isHeading
       ++ splitTreeBy (u_root [Node "heading" [] "h2"; Node "paragraph" [] "q"])
            isHeading)%list.
Proof.
  apply splitTreeBy_at_boundary. reflexivity.
Defined.

(** ** The normaliser, continued *)

Lemma sectionsFrom_length (predicate : Content -> bool) (nodes : list Content) :
  forall current,
    List.length (sectionsFrom predicate current nodes)
    = S (List.length (List.filter predicate nodes)).
Proof.
  induction nodes as [|n ns IH]; intros current; simpl; [reflexivity|].
  destruct (predicate n); simpl; rewrite IH; reflexivity.
Qed.

Lemma splitTreeBy_length (tree : Root) :
  List.length (splitTreeBy tree isHeading)
  = (countHeadings (children tree) + leadingSection (children tree))%nat.
Proof.
  destruct tree as [[|n ns]]; [reflexivity|].
  change {| children := n :: ns |} with (u_root (n :: ns)).
  rewrite splitTreeBy_cons, sectionsFrom_length.
  unfold countHeadings. simpl. destruct (isHeading n); simpl; lia.
Qed.

Lemma mapResult_Forall2 {A B : Type} (f : A -> result B) (l : list A) :
  forall bs, mapResult f l = Ok bs -> Forall2 (fun a b => f a = Ok b) l bs.
Proof.
  induction l as [|a l IH]; intros bs H; simpl in H.
  - inversion H. constructor.
  - destruct (f a) as [b | e] eqn:Ea; simpl in H; [|discriminate].
    destruct (mapResult f l) as [bs' | e]; simpl in H; [|discriminate].
    inversion H; subst. constructor; [exact Ea | apply IH; reflexivity].
Qed.

Section NormaliserMore.

Context {Meta : Type}.
Variable lib : @Lib Meta.
Variable CONTEXT_TOKENS_CUTOFF : Z.

(** [X9] When a document parses and the filter keeps a tree, the sections
    returned are the serialisations of the section trees, one for one and in
    order: as many as the filtered tree has headings among its children, and
    one more when its first child is not a heading. *)
Theorem splitMarkdownIntoSections_count
    (content : string) (asMDX : bool) (mdxTree mdTree : Root)
    (sections : list string) :
  fromMarkdown lib content asMDX = Ok mdxTree ->
  filter lib mdxTree keepNodeType = Some mdTree ->
  splitMarkdownIntoSections lib content asMDX = Ok sections ->
  Forall2 (fun tree text => toMarkdown lib tree = Ok text)
    (splitTreeBy mdTree isHeading) sections
  /\ List.length sections
     = (countHeadings (children mdTree) + leadingSection (children mdTree))%nat.
Proof.
  intros Hparse Hfilter Hsplit. unfold splitMarkdownIntoSections in Hsplit.
  rewrite Hparse in Hsplit. simpl in Hsplit. rewrite Hfilter in Hsplit.
  pose proof (mapResult_Forall2 _ _ _ Hsplit) as Hall.
  split; [exact Hall|].
  rewrite <- (Forall2_length Hall). apply splitTreeBy_length.
Qed.

(** [X10] When [processFile] throws, the error is the one of the last path
    tried: the HTML path for an HTML file, the Markdoc path for every other
    file; for a file that is neither, the MDX path threw first and its
    error is not the one reported. *)
Theorem processFile_throws (file : FileData) (e : string) :
  processFile lib CONTEXT_TOKENS_CUTOFF file = Throw e ->
  if String.eqb (getFileType lib (name file)) "mdoc"
  then splitMarkdocIntoSections lib (content file) = Throw e
  else if String.eqb (getFileType lib (name file)) "html"
  then splitHtmlIntoSections lib (content file) = Throw e
  else splitMarkdocIntoSections lib (content file) = Throw e
       /\ exists e1, splitMarkdownIntoSections lib (content file) true = Throw e1.
Proof.
  unfold processFile, fileSections. intros H.
  destruct (String.eqb (getFileType lib (name file)) "mdoc").
  - destruct (splitMarkdocIntoSections lib (content file)); [discriminate | simpl in H; inversion H; reflexivity].
  - destruct (String.eqb (getFileType lib (name file)) "html").
    + destruct (splitHtmlIntoSections lib (content file)); [discriminate | simpl in H; inversion H; reflexivity].
    + destruct (splitMarkdownIntoSections lib (content file) true) as [s | e1];
        [discriminate|].
      split; [|exists e1; reflexivity].
      destruct (splitMarkdocIntoSections lib (content file)); [discriminate | simpl in H; inversion H; reflexivity].
Qed.

End NormaliserMore.

Lemma splitMarkdownIntoSections_count_witness :
  List.length ["# One" ++ LFs ++ "first text"; "# Two" ++ LFs ++ "second text"] = 2%nat.
Proof.
  refine (proj2 (splitMarkdownIntoSections_count Sample.lib
            ("# One" ++ LFs ++ "first text" ++ LFs ++ "# Two" ++ LFs ++ "second text")
            true
            (u_root [Node "heading" [] "# One"; Node "paragraph" [] "first text";
                     Node "heading" [] "# Two"; Node "paragraph" [] "second text"])
            (u_root [Node "heading" [] "# One"; Node "paragraph" [] "first text";
                     Node "heading" [] "# Two"; Node "paragraph" [] "second text"])
            ["# One" ++ LFs ++ "first text"; "# Two" ++ LFs ++ "second text"]
            _ _ _)); reflexivity.
Defined.

Lemma processFile_throws_witness :
  splitMarkdocIntoSections Strict.lib ("{% note %}" ++ LFs ++ "# Title")
    = Throw "Error: unknown tag"
  /\ exists e1,
       splitMarkdownIntoSections Strict.lib ("{% note %}" ++ LFs ++ "# Title") true
       = Throw e1.
Proof.
  exact (processFile_throws Strict.lib 100
           {| path := "docs/tags.md"; name := "tags.md";
              content := "{% note %}" ++ LFs ++ "# Title" |}
           "Error: unknown tag" eq_refl).
Defined.

(** ** The embedding loop, continued *)

Lemma noLF_replaceLF (s : string) : noLF (replaceLF s) = true.
Proof.
  induction s as [|c r IH]; simpl; [reflexivity|].
  rewrite IH. destruct (Ascii.eqb c LF) eqn:E; [reflexivity|].
  rewrite E. reflexivity.
Qed.

Lemma length_replaceLF (s : string) : String.length (replaceLF s) = String.length s.
Proof. induction s as [|c r IH]; simpl; congruence. Qed.

Section LoopMore.

Context {Meta Embedding ProjectId FileId : Type}.
Variable MIN_CONTENT_LENGTH : Z.
Variable env : @Env Meta Embedding ProjectId FileId.
Variable filePath : string.
Variable fileId : FileId.
Variable byoOpenAIKey : option string.

Local Abbreviation Trace := (@Trace Meta Embedding ProjectId FileId).
Local Abbreviation Acc := (@Acc Embedding FileId).
Local Abbreviation step := (embedSection MIN_CONTENT_LENGTH env filePath fileId byoOpenAIKey).
Local Abbreviation loop := (embedLoop MIN_CONTENT_LENGTH env filePath fileId byoOpenAIKey).

(** What an iteration can do to the local variables: nothing, for a chunk
    it skips; else add one row, with the tokens of the response, or one
    error, with the tokens of a response that came without an embedding or
    none. *)
Lemma embedSection_cases (acc : Acc) (section : string) (t : Trace) :
  (qualifies MIN_CONTENT_LENGTH section = false /\ step acc section t = (acc, t))
  \/ (qualifies MIN_CONTENT_LENGTH section = true
      /\ ((exists res e es u,
            fst (backOff (createEmbeddingRequest env (replaceLF section) byoOpenAIKey)
                   10000 10 t) = Ok res
            /\ data res = e :: es /\ usage res = Some u
            /\ fst (step acc section t)
               = {| embeddingsTokenCount :=
                      (embeddingsTokenCount acc + usageTokens res)%Z;
                    errors := errors acc;
                    embeddingsData :=
                      (embeddingsData acc
                         ++ [ {| file_id := fileId;
                                 row_content := replaceLF section;
                                 embedding := e;
                                 token_count := usageTokens res |} ])%list |})
         \/ (exists res msg,
               fst (backOff (createEmbeddingRequest env (replaceLF section) byoOpenAIKey)
                      10000 10 t) = Ok res
               /\ (data res = [] \/ usage res = None)
               /\ fst (step acc section t)
                  = pushError
                      {| embeddingsTokenCount :=
                           (embeddingsTokenCount acc + usageTokens res)%Z;
                         errors := errors acc;
                         embeddingsData := embeddingsData acc |}
                      filePath msg)
         \/ (exists msg, fst (step acc section t) = pushError acc filePath msg))).
Proof.
  unfold qualifies, embedSection.
  destruct (Z.of_nat (String.length (replaceLF section)) <? MIN_CONTENT_LENGTH)%Z.
  - left. split; reflexivity.
  - right. split; [reflexivity|]. unfold bind.
    destruct (backOff _ 10000 10 t) as [[res | err] t']; simpl.
    + unfold recordEmbedding.
      destruct (data res) as [|e es] eqn:Hd.
      * right. left. exists res. eexists.
        split; [reflexivity | split; [left; exact Hd | reflexivity]].
      * destruct (usage res) as [u|] eqn:Hu.
        -- left. exists res, e, es, u.
           split; [reflexivity | split; [exact Hd | split; [exact Hu|]]].
           simpl. unfold usageTokens. rewrite Hu. reflexivity.
        -- right. left. exists res. eexists.
           split; [reflexivity | split; [right; exact Hu | reflexivity]].
    + right. right. eexists. reflexivity.
Qed.

Lemma embedSection_outcome (acc : Acc) (section : string) (t : Trace) :
  (List.length (embeddingsData (fst (step acc section t)))
     + List.length (errors (fst (step acc section t))))%nat
  = (List.length (embeddingsData acc) + List.length (errors acc)
       + if qualifies MIN_CONTENT_LENGTH section then 1 else 0)%nat.
Proof.
  destruct (embedSection_cases acc section t)
    as [[Hq Heq] | [Hq [(res & e & es & u & _ & _ & _ & Heq)
                       | [(res & msg & _ & _ & Heq) | (msg & Heq)]]]];
    rewrite Hq, Heq; simpl; rewrite ?length_app; simpl; lia.
Qed.

(** [X11] Every chunk the loop does not skip ends as one row or as one
    error entry: the rows and the errors gathered grow together by the number
    of chunks at least [MIN_CONTENT_LENGTH] long. *)
Theorem embedLoop_outcomes (sections : list string) :
  forall (acc : Acc) (t : Trace),
    (List.length (embeddingsData (fst (loop sections acc t)))
       + List.length (errors (fst (loop sections acc t))))%nat
    = (List.length (embeddingsData acc) + List.length (errors acc)
         + List.length (List.filter (qualifies MIN_CONTENT_LENGTH) sections))%nat.
Proof.
  induction sections as [|s ss IH]; intros acc t.
  - rewrite embedLoop_nil. simpl. lia.
  - rewrite embedLoop_cons, IH, embedSection_outcome. simpl.
    destruct (qualifies MIN_CONTENT_LENGTH s); simpl; lia.
Qed.

Lemma embedSection_rows (all : list string) (acc : Acc) (section : string) (t : Trace)
    (P : @Row Embedding FileId -> Prop) :
  (qualifies MIN_CONTENT_LENGTH section = true ->
   forall e n, P {| file_id := fileId; row_content := replaceLF section;
                    embedding := e; token_count := n |}) ->
  Forall P (embeddingsData acc) ->
  Forall P (embeddingsData (fst (step acc section t))).
Proof.
  intros Hnew Hacc.
  destruct (embedSection_cases acc section t)
    as [[Hq Heq] | [Hq [(res & e & es & u & _ & _ & _ & Heq)
                       | [(res & msg & _ & _ & Heq) | (msg & Heq)]]]];
    rewrite Heq; simpl; trivial.
  apply Forall_app. split; [exact Hacc | repeat constructor; apply Hnew; exact Hq].
Qed.

(** [X12] Every row the loop gathers belongs to the file, and its content
    is a chunk of the list with its line feeds turned into spaces: it holds
    no line feed and is at least [MIN_CONTENT_LENGTH] long. *)
Theorem embedLoop_rows (sections : list string) (t : Trace) :
  Forall (fun row =>
            file_id row = fileId
            /\ noLF (row_content row) = true
            /\ (MIN_CONTENT_LENGTH <= Z.of_nat (String.length (row_content row)))%Z
            /\ exists s, In s sections /\ row_content row = replaceLF s)
    (embeddingsData (fst (loop sections accInit t))).
Proof.
  set (P := fun row : @Row Embedding FileId =>
            file_id row = fileId
            /\ noLF (row_content row) = true
            /\ (MIN_CONTENT_LENGTH <= Z.of_nat (String.length (row_content row)))%Z
            /\ exists s, In s sections /\ row_content row = replaceLF s).
  assert (H : forall ss (acc : Acc) t',
             incl ss sections -> Forall P (embeddingsData acc) ->
             Forall P (embeddingsData (fst (loop ss acc t')))).
  { induction ss as [|s ss IH]; intros acc t' Hincl Hacc.
    - exact Hacc.
    - rewrite embedLoop_cons. apply IH.
      + intros x Hx. apply Hincl. right. exact Hx.
      + apply (embedSection_rows sections); [|exact Hacc].
        intros Hq e n. unfold P. simpl.
        split; [reflexivity|]. split; [apply noLF_replaceLF|].
        split.
        * unfold qualifies in Hq. apply negb_true_iff, Z.ltb_ge in Hq. exact Hq.
        * exists s. split; [apply Hincl; left; reflexivity | reflexivity]. }
  apply H; [apply incl_refl | constructor].
Qed.

Lemma embedSection_errors (acc : Acc) (section : string) (t : Trace) :
  Forall (fun e => err_path e = filePath) (errors acc) ->
  Forall (fun e => err_path e = filePath) (errors (fst (step acc section t))).
Proof.
  intros Hacc.
  destruct (embedSection_cases acc section t)
    as [[Hq Heq] | [Hq [(res & e & es & u & _ & _ & _ & Heq)
                       | [(res & msg & _ & _ & Heq) | (msg & Heq)]]]];
    rewrite Heq; simpl; trivial;
    apply Forall_app; split; trivial; repeat constructor.
Qed.

Lemma embedLoop_errors (sections : list string) :
  forall (acc : Acc) (t : Trace),
    Forall (fun e => err_path e = filePath) (errors acc) ->
    Forall (fun e => err_path e = filePath) (errors (fst (loop sections acc t))).
Proof.
  induction sections as [|s ss IH]; intros acc t Hacc.
  - exact Hacc.
  - rewrite embedLoop_cons. apply IH, embedSection_errors, Hacc.
Qed.





Lemma providerCalls_app (a b : Trace) :
  providerCalls (a ++ b) = (providerCalls a + providerCalls b)%nat.
Proof.
  unfold providerCalls. rewrite filter_app, length_app. reflexivity.
Qed.

(** [backOff] calls the provider once per attempt at most, and waits
    [10000 * 2 ^ k] milliseconds before attempt [k + 1]. *)
Lemma backOffFrom_calls (input : string) (key : option string) :
  forall (n a : nat) (t : Trace),
  exists evs,
    snd (backOffFrom (createEmbeddingRequest env input key) 10000 n a t)
      = (t ++ evs)%list
    /\ (providerCalls evs <= n)%nat
    /\ Forall (delayBelow (a + n - 1)) evs.
Proof.
  induction n as [|n IH]; intros a t.
  - exists []. simpl. rewrite app_nil_r. repeat split; [unfold providerCalls; simpl; lia | constructor].
  - rewrite backOffFrom_S, request_eq.
    assert (Hd : Forall (@delayBelow Meta Embedding ProjectId FileId (a + S n - 1))
                   (delayBefore a ++ [EvCreateEmbedding input key])
                 /\ providerCalls (delayBefore a ++ [EvCreateEmbedding input key] : Trace) = 1%nat).
    { destruct a as [|k]; simpl.
      - split; [repeat constructor | reflexivity].
      - split; [|reflexivity]. repeat constructor.
        exists k. split; [lia | reflexivity]. }
    destruct Hd as [Hd Hc].
    destruct (createEmbedding env (t ++ delayBefore a)%list input key) as [res | e].
    + eexists. split; [simpl; rewrite <- app_assoc; reflexivity|].
      split; [rewrite Hc; lia | exact Hd].
    + destruct n as [|n'].
      * eexists. split; [simpl; rewrite <- app_assoc; reflexivity|].
        split; [rewrite Hc; lia | exact Hd].
      * destruct (IH (S a) ((t ++ delayBefore a) ++ [EvCreateEmbedding input key])%list)
          as (evs & Hevs & Hcalls & Hdelays).
        rewrite Hevs.
        exists ((delayBefore a ++ [EvCreateEmbedding input key]) ++ evs)%list.
        split; [rewrite <- !app_assoc; reflexivity|].
        split; [rewrite providerCalls_app, Hc; lia|].
        apply Forall_app. split; [exact Hd|].
        replace (a + S (S n') - 1)%nat with (S a + S n' - 1)%nat by lia. exact Hdelays.
Qed.

Lemma delayBelow_range (e : @Event Meta Embedding ProjectId FileId) :
  delayBelow 9 e -> delayInRange e.
Proof.
  destruct e; simpl; trivial. intros (k & Hk & ->).
  do 9 (destruct k as [|k]; [simpl; lia|]). lia.
Qed.

Lemma embedSection_calls (acc : Acc) (section : string) (t : Trace) :
  exists evs,
    snd (step acc section t) = (t ++ evs)%list
    /\ (providerCalls evs
        <= if qualifies MIN_CONTENT_LENGTH section then 10 else 0)%nat
    /\ Forall delayInRange evs.
Proof.
  unfold qualifies, embedSection.
  destruct (Z.of_nat (String.length (replaceLF section)) <? MIN_CONTENT_LENGTH)%Z.
  - exists []. simpl. rewrite app_nil_r. repeat split; [unfold providerCalls; simpl; lia | constructor].
  - unfold bind, backOff.
    destruct (backOffFrom_calls (replaceLF section) byoOpenAIKey 10 0 t)
      as (evs & Hevs & Hcalls & Hdelays).
    exists evs. simpl negb. cbv iota.
    split; [|split; [exact Hcalls|]].
    + destruct (backOffFrom _ 10000 10 0 t) as [[res | e] t']; simpl in *.
      * destruct (recordEmbedding env fileId (replaceLF section) acc res); exact Hevs.
      * exact Hevs.
    + eapply Forall_impl; [|exact Hdelays]. intros e. apply delayBelow_range.
Qed.

(** [X14] The loop calls the provider at most ten times for each chunk it
    does not skip, and never for a chunk it skips; every wait between two
    attempts lasts between 10 and 2560 seconds. *)
Theorem embedLoop_calls (sections : list string) :
  forall (acc : Acc) (t : Trace),
  exists evs,
    snd (loop sections acc t) = (t ++ evs)%list
    /\ (providerCalls evs
        <= 10 * List.length (List.filter (qualifies MIN_CONTENT_LENGTH) sections))%nat
    /\ Forall delayInRange evs.
Proof.
  induction sections as [|s ss IH]; intros acc t.
  - exists []. rewrite embedLoop_nil. simpl. rewrite app_nil_r.
    repeat split; [unfold providerCalls; simpl; lia | constructor].
  - rewrite embedLoop_cons.
    destruct (embedSection_calls acc s t) as (e1 & H1 & C1 & D1).
    destruct (IH (fst (step acc s t)) (snd (step acc s t))) as (e2 & H2 & C2 & D2).
    exists (e1 ++ e2)%list. rewrite H2, H1, <- app_assoc.
    split; [reflexivity|]. split.
    + rewrite providerCalls_app. simpl.
      destruct (qualifies MIN_CONTENT_LENGTH s); simpl; lia.
    + apply Forall_app. split; assumption.
Qed.

(** [X15] Attempts that throw are absorbed when a later one, among the
    ten, returns a response with an embedding and a usage: the chunk gives
    its row and the tokens of that response, and no error entry; the provider
    is not called again for it. *)
Theorem embedSection_retry_succeeds (acc : Acc) (section : string) (t : Trace)
    (k : nat) (errs : nat -> string)
    (res : EmbeddingResult) (e : Embedding) (es : list Embedding) (u : Usage) :
  (k < 10)%nat ->
  (MIN_CONTENT_LENGTH <= Z.of_nat (String.length (replaceLF section)))%Z ->
  (forall j, (j < k)%nat ->
     createEmbedding env
       (t ++ failedAttempts (replaceLF section) byoOpenAIKey 0 j ++ delayBefore j)%list
       (replaceLF section) byoOpenAIKey
     = Throw (errs j)) ->
  createEmbedding env
    (t ++ failedAttempts (replaceLF section) byoOpenAIKey 0 k ++ delayBefore k)%list
    (replaceLF section) byoOpenAIKey
  = Ok res ->
  data res = e :: es ->
  usage res = Some u ->
  step acc section t
  = ({| embeddingsTokenCount := (embeddingsTokenCount acc + usageTokens res)%Z;
        errors := errors acc;
        embeddingsData :=
          (embeddingsData acc
             ++ [ {| file_id := fileId; row_content := replaceLF section;
                     embedding := e; token_count := usageTokens res |} ])%list |},
     (t ++ failedAttempts (replaceLF section) byoOpenAIKey 0 k ++ delayBefore k
        ++ [EvCreateEmbedding (replaceLF section) byoOpenAIKey])%list).
Proof.
  intros Hk Hmin Hfail Hok Hdata Husage. unfold embedSection.
  apply Z.ltb_ge in Hmin. rewrite Hmin.
  unfold bind, backOff.
  rewrite (backOffFrom_success env (replaceLF section) byoOpenAIKey k 10 0 t errs res
             Hk Hfail Hok).
  unfold recordEmbedding. rewrite Hdata, Husage.
  unfold usageTokens. rewrite Husage. reflexivity.
Qed.

(** [X16] A response without an embedding, or without a usage, gives one
    error entry and no row; the tokens the response reports are added to the
    count all the same, since the count is updated before the row is built. *)
Theorem embedSection_malformed_response (acc : Acc) (section : string) (t : Trace)
    (res : EmbeddingResult) :
  (MIN_CONTENT_LENGTH <= Z.of_nat (String.length (replaceLF section)))%Z ->
  createEmbedding env t (replaceLF section) byoOpenAIKey = Ok res ->
  data res = [] \/ usage res = None ->
  step acc section t
  = ({| embeddingsTokenCount := (embeddingsTokenCount acc + usageTokens res)%Z;
        errors :=
          (errors acc
             ++ [ {| err_path := filePath;
                     message :=
                       embeddingErrorMessage (replaceLF section)
                         (typeError env
                            match data res with
                            | [] => "embedding"
                            | _ :: _ => "total_tokens"
                            end) |} ])%list;
        embeddingsData := embeddingsData acc |},
     (t ++ [EvCreateEmbedding (replaceLF section) byoOpenAIKey])%list).
Proof.
  intros Hmin Hok Hbad. unfold embedSection.
  apply Z.ltb_ge in Hmin. rewrite Hmin.
  unfold bind, backOff.
  rewrite (backOffFrom_success env (replaceLF section) byoOpenAIKey 0 10 0 t
             (fun _ => EmptyString) res); [| lia | intros j Hj; lia |].
  - unfold recordEmbedding.
    destruct (data res) as [|e es]; [reflexivity|].
    destruct Hbad as [Hd | Hu]; [discriminate|]. rewrite Hu. reflexivity.
  - simpl. rewrite app_nil_r. exact Hok.
Qed.

(** [X17] The loop over a list of chunks is the loop over its first part
    followed by the loop over the rest, run from the history the first part
    leaves; the tokens, errors and rows of the two add up. *)
Theorem embedLoop_append (pre post : list string) (t : Trace) :
  loop (pre ++ post) accInit t
  = (mergeAcc (fst (loop pre accInit t))
       (fst (loop post accInit (snd (loop pre accInit t)))),
     snd (loop post accInit (snd (loop pre accInit t)))).
Proof.
  rewrite embedLoop_app. apply embedLoop_merge.
Qed.

End LoopMore.

(** ** Whole runs, continued *)

Section RunMore.

Context {Meta Embedding ProjectId FileId : Type}.
Variable truthyId : FileId -> bool.
Variable lib : @Lib Meta.
Variable CONTEXT_TOKENS_CUTOFF : Z.
Variable MIN_CONTENT_LENGTH : Z.
Variable env : @Env Meta Embedding ProjectId FileId.

Local Abbreviation Trace := (@Trace Meta Embedding ProjectId FileId).
Local Abbreviation Acc := (@Acc Embedding FileId).
Local Abbreviation run :=
  (generateFileEmbeddings truthyId lib CONTEXT_TOKENS_CUTOFF MIN_CONTENT_LENGTH env).

(** [X18] Every error a run returns carries the path of the file: the
    error of a file that cannot be created, the errors of the chunks and the
    error of the bulk insert. *)
Theorem generateFileEmbeddings_error_paths
    (projectId : ProjectId) (file : FileData) (key : option string)
    (t0 t' : Trace) (errs : list ErrorEntry) :
  run projectId file key t0 = (Ok errs, t') ->
  Forall (fun e => err_path e = path file) errs.
Proof.
  unfold generateFileEmbeddings.
  destruct (processFile lib CONTEXT_TOKENS_CUTOFF file) as [fsd | e]; [|discriminate].
  unfold bind at 1.
  destruct (resolveFile truthyId env projectId (path file) (meta fsd) t0) as [[id|] t1].
  - unfold bind at 1.
    pose proof (embedLoop_errors MIN_CONTENT_LENGTH env (path file) id key
                  (sections fsd) accInit t1 (Forall_nil _)) as Herrs.
    destruct (embedLoop MIN_CONTENT_LENGTH env (path file) id key (sections fsd)
                accInit t1) as [acc t2].
    simpl in Herrs. unfold bind at 1. rewrite storeEmbeddings_eq.
    destruct (insertError env t2 (embeddingsData acc)) as [msg|];
      unfold bind, emit, ret; simpl; intros H; inversion H; subst; trivial.
    apply Forall_app. split; [exact Herrs | repeat constructor].
  - unfold ret. intros H. inversion H; subst. repeat constructor.
Qed.

Lemma embedLoop_all_skipped (filePath : string) (fileId : FileId)
    (key : option string) (sections : list string) (acc : Acc) (t : Trace) :
  Forall (fun s => qualifies MIN_CONTENT_LENGTH s = false) sections ->
  embedLoop MIN_CONTENT_LENGTH env filePath fileId key sections acc t = (acc, t).
Proof.
  intros H. induction H as [|s ss Hs _ IH]; [reflexivity|].
  rewrite embedLoop_cons.
  rewrite (embedSection_skip MIN_CONTENT_LENGTH env filePath fileId key acc s t).
  - exact IH.
  - unfold qualifies in Hs. apply negb_false_iff, Z.ltb_lt in Hs. exact Hs.
Qed.

(** [X19] When a file has no chunk of the minimum length (no section at
    all, or only short ones), the provider is not called, and the run still
    inserts an empty batch of rows and increments the usage counter by zero;
    it returns no error unless that insert reports one. *)
Theorem generateFileEmbeddings_nothing_to_embed
    (projectId : ProjectId) (file : FileData) (key : option string)
    (fsd : @FileSectionData Meta) (fileId : FileId) (t0 t1 : Trace) :
  processFile lib CONTEXT_TOKENS_CUTOFF file = Ok fsd ->
  resolveFile truthyId env projectId (path file) (meta fsd) t0 = (Some fileId, t1) ->
  Forall (fun s => qualifies MIN_CONTENT_LENGTH s = false) (sections fsd) ->
  run projectId file key t0
  = (Ok match insertError env t1 [] with
        | Some msg => [ {| err_path := path file;
                           message := "Error storing embeddings: " ++ msg |} ]
        | None => []
        end,
     (t1 ++ [EvInsertFileSections []; EvIncrBy projectId 0%Z])%list).
Proof.
  intros Hfile Hres Hshort. unfold generateFileEmbeddings.
  rewrite Hfile. unfold bind at 1. rewrite Hres.
  unfold bind at 1. rewrite (embedLoop_all_skipped _ _ _ _ _ _ Hshort).
  unfold bind at 1. rewrite storeEmbeddings_eq. simpl.
  destruct (insertError env t1 []) as [msg|];
    unfold bind, emit, ret; simpl; rewrite <- app_assoc; reflexivity.
Qed.

(** [X20] For a file the store knows, a run starts with the lookup, the
    deletion of the file's former sections and the update of its metadata,
    whatever happens to the chunks afterwards; the file is not created
    again. *)
Theorem generateFileEmbeddings_known_file
    (projectId : ProjectId) (file : FileData) (key : option string)
    (fsd : @FileSectionData Meta) (fileId : FileId) (t0 : Trace) :
  processFile lib CONTEXT_TOKENS_CUTOFF file = Ok fsd ->
  truthyFile truthyId (getFileAtPath env t0 projectId (path file)) = Some fileId ->
  exists rest,
    snd (run projectId file key t0)
    = (t0 ++ [EvGetFileAtPath projectId (path file);
              EvDeleteFileSections fileId;
              EvUpdateFileMeta fileId (meta fsd)] ++ rest)%list
    /\ Forall (fun e => ~ isCreateFile e) rest.
Proof.
  intros Hfile Hget. unfold generateFileEmbeddings. rewrite Hfile.
  unfold bind at 1.
  assert (Hres : resolveFile truthyId env projectId (path file) (meta fsd) t0
                 = (Some fileId,
                    (t0 ++ [EvGetFileAtPath projectId (path file);
                            EvDeleteFileSections fileId;
                            EvUpdateFileMeta fileId (meta fsd)])%list)).
  { unfold resolveFile, bind, call. rewrite Hget.
    unfold emit, ret. rewrite <- !app_assoc. reflexivity. }
  rewrite Hres. set (t1 := (t0 ++ _)%list).
  destruct (embedLoop_trace MIN_CONTENT_LENGTH env (path file) fileId key
              (sections fsd) accInit t1) as [mid [Hmid Amid]].
  unfold bind at 1.
  destruct (embedLoop MIN_CONTENT_LENGTH env (path file) fileId key (sections fsd)
              accInit t1) as [acc t2].
  simpl in Hmid. subst t2.
  destruct (storeEmbeddings_trace env (path file) acc (t1 ++ mid)%list)
    as [ins [Hins Ains]].
  unfold bind at 1.
  destruct (storeEmbeddings env (path file) acc (t1 ++ mid)%list) as [errs t3].
  simpl in Hins. subst t3.
  exists (mid ++ ins ++ [EvIncrBy projectId (embeddingsTokenCount acc)])%list.
  unfold bind, emit, ret. simpl. split.
  - unfold t1. rewrite <- !app_assoc. reflexivity.
  - apply Forall_app. split; [|apply Forall_app; split].
    + eapply Forall_impl; [|exact Amid]. intros [] H; simpl in *; tauto.
    + eapply Forall_impl; [|exact Ains]. intros [] H; simpl in *; tauto.
    + repeat constructor. simpl. tauto.
Qed.

End RunMore.

(** ** Runs in the small worlds *)


Lemma embedSection_retry_succeeds_witness :
  embedSection 5 Flaky.env "docs/known.md" 7%Z None accInit "hello world" []
  = ({| embeddingsTokenCount := 11;
        errors := [];
        embeddingsData :=
          [ {| file_id := 7%Z; row_content := "hello world";
               embedding := [1; 2]%Z; token_count := 11 |} ] |},
     [EvCreateEmbedding "hello world" None; EvDelay 10000;
      EvCreateEmbedding "hello world" None; EvDelay 20000;
      EvCreateEmbedding "hello world" None]).
Proof.
  refine (embedSection_retry_succeeds 5 Flaky.env "docs/known.md" 7%Z None
            accInit "hello world" [] 2 (fun _ => "Error: 429")
            {| data := [[1; 2]%Z];
               usage := Some {| total_tokens := Some 11%Z |} |}
            [1; 2]%Z [] {| total_tokens := Some 11%Z |} _ _ _ _ _ _).
  - lia.
  - simpl. lia.
  - intros j Hj. destruct j as [|[|j]]; [reflexivity | reflexivity | lia].
  - reflexivity.
  - reflexivity.
  - reflexivity.
Defined.

Lemma embedSection_malformed_response_witness :
  embedSection 5 Hollow.env "docs/known.md" 7%Z None accInit "hello world" []
  = ({| embeddingsTokenCount := 11;
        errors :=
          [ {| err_path := "docs/known.md";
               message :=
                 "Unable to generate embeddings for section starting with "
                   ++ "'hello world...': TypeError: Cannot read properties of "
                   ++ "undefined (reading 'embedding')" |} ];
        embeddingsData := [] |},
     [EvCreateEmbedding "hello world" None]).
Proof.
  refine (embedSection_malformed_response 5 Hollow.env "docs/known.md" 7%Z None
            accInit "hello world" []
            {| data := []; usage := Some {| total_tokens := Some 11%Z |} |} _ _ _).
  - simpl. lia.
  - reflexivity.
  - left. reflexivity.
Defined.

Lemma generateFileEmbeddings_error_paths_witness :
  Forall (fun e => err_path e = "docs/three.md")
    [ {| err_path := "docs/three.md";
         message := "Error storing embeddings: payload too large" |} ].
Proof.
  exact (generateFileEmbeddings_error_paths Sample.truthyId Sample.lib 100 5
           Sample.env "project" Docs.three None [] (snd (Sample.run Docs.three))
           [ {| err_path := "docs/three.md";
                message := "Error storing embeddings: payload too large" |} ]
           eq_refl).
Defined.

Lemma generateFileEmbeddings_nothing_to_embed_witness :
  Sample.run MoreDocs.tiny
  = (Ok [],
     [EvGetFileAtPath "project" "docs/known.md";
      EvDeleteFileSections 7%Z;
      EvUpdateFileMeta 7%Z "meta";
      EvInsertFileSections [];
      EvIncrBy "project" 0%Z]).
Proof.
  refine (generateFileEmbeddings_nothing_to_embed Sample.truthyId Sample.lib 100 5
            Sample.env "project" MoreDocs.tiny None
            {| sections := ["# T"]; meta := "meta" |} 7%Z []
            [EvGetFileAtPath "project" "docs/known.md";
             EvDeleteFileSections 7%Z; EvUpdateFileMeta 7%Z "meta"] _ _ _).
  - reflexivity.
  - reflexivity.
  - repeat constructor.
Defined.

Lemma generateFileEmbeddings_known_file_witness :
  exists rest,
    snd (Sample.run Docs.known)
    = ([] ++ [EvGetFileAtPath "project" "docs/known.md";
              EvDeleteFileSections 7%Z;
              EvUpdateFileMeta 7%Z "meta"] ++ rest)%list
    /\ Forall (fun e => ~ isCreateFile e) rest.
Proof.
  exact (generateFileEmbeddings_known_file Sample.truthyId Sample.lib 100 5
           Sample.env "project" Docs.known None
           {| sections := ["# Title" ++ LFs ++ "hello world"]; meta := "meta" |}
           7%Z [] eq_refl eq_refl).
Defined.
